(** * Nymia desktop: the waiting/polling flows of the VerusID registration UI

    A shallow embedding of the Svelte components that submit a request to the
    backend and then wait for it to be confirmed:

    - [RegisterIdentityStep]   (RegisterIdentityStep.svelte)
    - [CurrencyConversionStep] (CurrencyConversionStep.svelte)
    - [IdentityInfoStep]       (IdentityInfoStep.svelte: name filter, prices)
    - [FundingModal]           (FundingModal.svelte: the auto-funding guard)

    JavaScript runs one turn at a time: a click handler, a timer callback or
    the continuation of an [await] runs to its next [await] without being
    interrupted.  Each component is therefore a transition function on its
    variables, one case per turn; timers live in the host's timer table.

    The amounts the waiting flows pass around are exact rationals ([Qc]):
    the flows compare and subtract them.  The referral prices are computed
    on IEEE doubles ([float]), as JavaScript computes them. *)

From stdpp Require Import base option list gmap strings numbers.
From Stdlib Require Import Ascii ZArith QArith Qabs Qcanon Qround Lia.
From Stdlib Require Uint63.
From Stdlib Require Import PrimFloat SpecFloat FloatOps.

Local Open Scope string_scope.

(** ** JavaScript values the components rely on *)

Module Js.

(** What a rejected promise (or a [throw]) carries: a plain string, or an
    object with an optional [message] field; [rendered] is [String(e)]. *)
Inductive Thrown :=
| ThrownString (s : string)
| ThrownObject (message : option string) (rendered : string).

(** [new Error(msg)] *)
Definition newError (msg : string) : Thrown :=
  ThrownObject (Some msg) (if decide (msg = "") then "Error" else "Error: " ++ msg).

(** [s || t] on strings: the empty string is falsy. *)
Definition strOr (s t : string) : string :=
  if decide (s = "") then t else s.

(** [e.message || String(e)], also the text of [`${e.message || e}`]. *)
Definition messageOrString (e : Thrown) : string :=
  match e with
  | ThrownString s => s
  | ThrownObject (Some m) r => strOr m r
  | ThrownObject None r => r
  end.

(** Truthiness of [string | null]. *)
Definition truthyStr (o : option string) : bool :=
  match o with
  | Some s => negb (bool_decide (s = ""))
  | None => false
  end.

(** [toLowerCase] on the ASCII range (the only range that can produce the
    letters the components compare against). *)
Definition lowerAscii (c : ascii) : ascii :=
  let n := nat_of_ascii c in
  if (65 <=? n)%nat && (n <=? 90)%nat then ascii_of_nat (n + 32) else c.

Fixpoint toLowerCase (s : string) : string :=
  match s with
  | EmptyString => EmptyString
  | String c r => String (lowerAscii c) (toLowerCase r)
  end.

(** [trim] for the ASCII white space characters. *)
Definition isSpace (c : ascii) : bool :=
  let n := nat_of_ascii c in
  ((9 <=? n)%nat && (n <=? 13)%nat) || (n =? 32)%nat.

Fixpoint trimStart (s : string) : string :=
  match s with
  | String c r => if isSpace c then trimStart r else s
  | EmptyString => EmptyString
  end.

Definition trim (s : string) : string :=
  String.rev (trimStart (String.rev (trimStart s))).




End Js.

(** ** The host's interval timers ([setInterval] / [clearInterval]) *)

Module Host.

(** The closure an interval runs. *)
Inductive Callback := ElapsedCb | PollCb.

#[global] Instance Callback_eq_dec : EqDecision Callback.
Proof. solve_decision. Defined.

(** Timer ids are the positive integers the host hands out, in order; a
    stored id is therefore always truthy in [if (timerInterval)]. *)
Record Timers := {
  live : gmap positive Callback;
  nextId : positive
}.

Definition noTimers : Timers := {| live := ∅; nextId := 1 |}.

Definition setInterval (cb : Callback) (t : Timers) : positive * Timers :=
  (nextId t, {| live := <[nextId t := cb]> (live t); nextId := Pos.succ (nextId t) |}).

(** Clearing an id that is not live does nothing and raises nothing. *)
Definition clearInterval (h : positive) (t : Timers) : Timers :=
  {| live := delete h (live t); nextId := nextId t |}.

Definition isLive (h : positive) (t : Timers) : bool :=
  bool_decide (is_Some (live t !! h)).

Definition runs (h : positive) (cb : Callback) (t : Timers) : bool :=
  bool_decide (live t !! h = Some cb).

(** How many live intervals run the callback [cb]. *)
Definition count (cb : Callback) (t : Timers) : nat :=
  size (filter (λ kv, kv.2 = cb) (live t)).

(** Every live id has been handed out. *)
Definition wf (t : Timers) : bool :=
  bool_decide (map_Forall (λ h _, (h < nextId t)%positive) (live t)).

End Host.

(** ** Shared types *)

Module Types.

(** Modelled from the spec: the declaration of [NamespaceOption] (in
    [$lib/types]) is not among the sources; these are the fields the
    components read. *)
Record NamespaceOption := {
  currency_id : string;
  name : string;
  registration_fee : Qc;
  options : Z;
  id_referral_levels : Qc
}.

End Types.

(** [isRootNamespace], defined identically in the registration modal and in
    [RegisterIdentityStep] ([IdentityInfoStep] has its own, below). *)
Definition isRootNamespace (namespace : Types.NamespaceOption) : bool :=
  let lname := Js.toLowerCase (Types.name namespace) in
  bool_decide (lname = "vrsc") || bool_decide (lname = "vrsctest").

(** ** RegisterIdentityStep.svelte *)

Module RegisterIdentityStep.

Inductive Phase :=
  idle | committing | waitingCommit | finalizing | waitingFinalize | done | error.

(** The component's variables. *)
Record State := {
  isRoot : bool;
  controlAddress : string;
  privateAddress : string;
  commitTxid : string;
  finalizeTxid : string;
  phase : Phase;
  errorMsg : option string;
  phaseStartTime : Z;
  elapsedSeconds : Z;
  timerInterval : option positive
}.

Definition POLL_INTERVAL_SECS : Z := 10.
Definition TIMEOUT_SECS : Z := 30 * 60.

(** Backend commands the step invokes, with their arguments. *)
Inductive Command :=
| get_new_address
| register_name_commitment (name controlAddress referralIdentity parentNamespace : string)
| wait_for_block_increase (blocks intervalSecs timeoutSecs : Z)
| get_new_private_address
| register_identity (txid namereservation identityName primaryAddress privateAddress : string)
| wait_for_identity_ready (identityName : string) (intervalSecs timeoutSecs : Z).

(** What the backend answers. *)
Inductive Value :=
| VString (s : string)
| VBool (b : bool)
| VCommit (txid namereservation : string).

Inductive Settle :=
| Resolved (v : Value)
| Rejected (e : Js.Thrown).

(** Where [startFlow] is suspended, with the locals it still needs. *)
Inductive Await :=
| AwaitControlAddress
| AwaitCommit
| AwaitCommitBlock (namereservation : string)
| AwaitPrivateAddress (namereservation : string)
| AwaitFinalize
| AwaitFinalizeBlock
| AwaitIdentityReady.

Inductive Emitted :=
| completed (controlAddress privateAddress : string)
| errorEvent (message : string).

Record World := {
  (* props *)
  name : string;
  selectedNamespace : Types.NamespaceOption;
  referralCode : string;
  (* variables, timers, the suspended flow, and what was observed *)
  vars : State;
  timers : Host.Timers;
  pending : option Await;
  mounted : bool;
  calls : list Command;
  emitted : list Emitted
}.

Definition assign (f : State → State) (w : World) : World :=
  {| name := name w; selectedNamespace := selectedNamespace w;
     referralCode := referralCode w; vars := f (vars w); timers := timers w;
     pending := pending w; mounted := mounted w; calls := calls w;
     emitted := emitted w |}.

Definition withTimers (t : Host.Timers) (w : World) : World :=
  {| name := name w; selectedNamespace := selectedNamespace w;
     referralCode := referralCode w; vars := vars w; timers := t;
     pending := pending w; mounted := mounted w; calls := calls w;
     emitted := emitted w |}.

Definition withPending (k : option Await) (w : World) : World :=
  {| name := name w; selectedNamespace := selectedNamespace w;
     referralCode := referralCode w; vars := vars w; timers := timers w;
     pending := k; mounted := mounted w; calls := calls w;
     emitted := emitted w |}.

Definition withMounted (b : bool) (w : World) : World :=
  {| name := name w; selectedNamespace := selectedNamespace w;
     referralCode := referralCode w; vars := vars w; timers := timers w;
     pending := pending w; mounted := b; calls := calls w;
     emitted := emitted w |}.

(** [await invoke(c)]: the call goes out and the flow is suspended at [k]. *)
Definition invoke (c : Command) (k : Await) (w : World) : World :=
  {| name := name w; selectedNamespace := selectedNamespace w;
     referralCode := referralCode w; vars := vars w; timers := timers w;
     pending := Some k; mounted := mounted w; calls := calls w ++ [c];
     emitted := emitted w |}.

Definition dispatch (e : Emitted) (w : World) : World :=
  {| name := name w; selectedNamespace := selectedNamespace w;
     referralCode := referralCode w; vars := vars w; timers := timers w;
     pending := pending w; mounted := mounted w; calls := calls w;
     emitted := emitted w ++ [e] |}.

Definition setIsRoot (b : bool) (s : State) : State :=
  {| isRoot := b; controlAddress := controlAddress s; privateAddress := privateAddress s;
     commitTxid := commitTxid s; finalizeTxid := finalizeTxid s; phase := phase s;
     errorMsg := errorMsg s; phaseStartTime := phaseStartTime s;
     elapsedSeconds := elapsedSeconds s; timerInterval := timerInterval s |}.

Definition setControlAddress (a : string) (s : State) : State :=
  {| isRoot := isRoot s; controlAddress := a; privateAddress := privateAddress s;
     commitTxid := commitTxid s; finalizeTxid := finalizeTxid s; phase := phase s;
     errorMsg := errorMsg s; phaseStartTime := phaseStartTime s;
     elapsedSeconds := elapsedSeconds s; timerInterval := timerInterval s |}.

Definition setPrivateAddress (a : string) (s : State) : State :=
  {| isRoot := isRoot s; controlAddress := controlAddress s; privateAddress := a;
     commitTxid := commitTxid s; finalizeTxid := finalizeTxid s; phase := phase s;
     errorMsg := errorMsg s; phaseStartTime := phaseStartTime s;
     elapsedSeconds := elapsedSeconds s; timerInterval := timerInterval s |}.

Definition setCommitTxid (t : string) (s : State) : State :=
  {| isRoot := isRoot s; controlAddress := controlAddress s; privateAddress := privateAddress s;
     commitTxid := t; finalizeTxid := finalizeTxid s; phase := phase s;
     errorMsg := errorMsg s; phaseStartTime := phaseStartTime s;
     elapsedSeconds := elapsedSeconds s; timerInterval := timerInterval s |}.

Definition setFinalizeTxid (t : string) (s : State) : State :=
  {| isRoot := isRoot s; controlAddress := controlAddress s; privateAddress := privateAddress s;
     commitTxid := commitTxid s; finalizeTxid := t; phase := phase s;
     errorMsg := errorMsg s; phaseStartTime := phaseStartTime s;
     elapsedSeconds := elapsedSeconds s; timerInterval := timerInterval s |}.

Definition setPhase (p : Phase) (s : State) : State :=
  {| isRoot := isRoot s; controlAddress := controlAddress s; privateAddress := privateAddress s;
     commitTxid := commitTxid s; finalizeTxid := finalizeTxid s; phase := p;
     errorMsg := errorMsg s; phaseStartTime := phaseStartTime s;
     elapsedSeconds := elapsedSeconds s; timerInterval := timerInterval s |}.

Definition setErrorMsg (m : option string) (s : State) : State :=
  {| isRoot := isRoot s; controlAddress := controlAddress s; privateAddress := privateAddress s;
     commitTxid := commitTxid s; finalizeTxid := finalizeTxid s; phase := phase s;
     errorMsg := m; phaseStartTime := phaseStartTime s;
     elapsedSeconds := elapsedSeconds s; timerInterval := timerInterval s |}.

Definition setPhaseStartTime (t : Z) (s : State) : State :=
  {| isRoot := isRoot s; controlAddress := controlAddress s; privateAddress := privateAddress s;
     commitTxid := commitTxid s; finalizeTxid := finalizeTxid s; phase := phase s;
     errorMsg := errorMsg s; phaseStartTime := t;
     elapsedSeconds := elapsedSeconds s; timerInterval := timerInterval s |}.

Definition setElapsedSeconds (n : Z) (s : State) : State :=
  {| isRoot := isRoot s; controlAddress := controlAddress s; privateAddress := privateAddress s;
     commitTxid := commitTxid s; finalizeTxid := finalizeTxid s; phase := phase s;
     errorMsg := errorMsg s; phaseStartTime := phaseStartTime s;
     elapsedSeconds := n; timerInterval := timerInterval s |}.

Definition setTimerInterval (h : option positive) (s : State) : State :=
  {| isRoot := isRoot s; controlAddress := controlAddress s; privateAddress := privateAddress s;
     commitTxid := commitTxid s; finalizeTxid := finalizeTxid s; phase := phase s;
     errorMsg := errorMsg s; phaseStartTime := phaseStartTime s;
     elapsedSeconds := elapsedSeconds s; timerInterval := h |}.

(** The reactive declarations [fullId] and [identityNameForFinalize]. *)
Definition fullId (w : World) : string :=
  if isRoot (vars w) then name w ++ "@"
  else name w ++ "." ++ Types.name (selectedNamespace w) ++ "@".

Definition identityNameForFinalize (w : World) : string :=
  if isRoot (vars w) then name w
  else name w ++ "." ++ Types.name (selectedNamespace w).

(** [startTimer]; [now] is what [Date.now()] returns. *)
Definition startTimer (now : Z) (w : World) : World :=
  let w := assign (setPhaseStartTime now) w in
  let w := assign (setElapsedSeconds 0) w in
  let w := match timerInterval (vars w) with
           | Some h => withTimers (Host.clearInterval h (timers w)) w
           | None => w
           end in
  let ht := Host.setInterval Host.ElapsedCb (timers w) in
  assign (setTimerInterval (Some ht.1)) (withTimers ht.2 w).

Definition stopTimer (w : World) : World :=
  match timerInterval (vars w) with
  | Some h =>
      assign (setTimerInterval None) (withTimers (Host.clearInterval h (timers w)) w)
  | None => w
  end.

(** The [catch] block of [startFlow]. *)
Definition catch (e : Js.Thrown) (w : World) : World :=
  let w := stopTimer w in
  let msg := Js.messageOrString e in
  let w := assign (setErrorMsg (Some msg)) w in
  let w := assign (setPhase error) w in
  dispatch (errorEvent (Js.strOr msg "Unknown error")) (withPending None w).

(** [startFlow] up to its first [await]. *)
Definition startFlow (w : World) : World :=
  let w := assign (setErrorMsg None) w in
  let w := assign (setPhase committing) w in
  invoke get_new_address AwaitControlAddress w.

(** [startFlow] from the [await] it is suspended at to the next one. *)
Definition resume (k : Await) (r : Settle) (now : Z) (w : World) : option World :=
  match r with
  | Rejected e => Some (catch e w)
  | Resolved v =>
      match k, v with
      | AwaitControlAddress, VString a =>
          let w := assign (setControlAddress a) w in
          let parentNamespace :=
            if isRoot (vars w) then "" else Types.name (selectedNamespace w) in
          let referral := Js.trim (Js.strOr (referralCode w) "") in
          Some (invoke (register_name_commitment (name w) a referral parentNamespace)
                       AwaitCommit w)
      | AwaitCommit, VCommit txid namereservation =>
          let w := assign (setCommitTxid txid) w in
          let w := assign (setPhase waitingCommit) w in
          let w := startTimer now w in
          Some (invoke (wait_for_block_increase 1 POLL_INTERVAL_SECS TIMEOUT_SECS)
                       (AwaitCommitBlock namereservation) w)
      | AwaitCommitBlock namereservation, VBool commitOk =>
          let w := stopTimer w in
          if negb commitOk
          then Some (catch (Js.newError "Commit transaction not confirmed in time.") w)
          else
            let w := assign (setPhase finalizing) w in
            Some (invoke get_new_private_address (AwaitPrivateAddress namereservation) w)
      | AwaitPrivateAddress namereservation, VString a =>
          let w := assign (setPrivateAddress a) w in
          Some (invoke (register_identity (commitTxid (vars w)) namereservation
                          (identityNameForFinalize w) (controlAddress (vars w)) a)
                       AwaitFinalize w)
      | AwaitFinalize, VString txid =>
          let w := assign (setFinalizeTxid txid) w in
          let w := assign (setPhase waitingFinalize) w in
          let w := startTimer now w in
          Some (invoke (wait_for_block_increase 1 POLL_INTERVAL_SECS TIMEOUT_SECS)
                       AwaitFinalizeBlock w)
      | AwaitFinalizeBlock, VBool finOk =>
          let w := stopTimer w in
          if negb finOk
          then Some (catch (Js.newError "Finalize transaction not confirmed in time.") w)
          else
            Some (invoke (wait_for_identity_ready (fullId w) POLL_INTERVAL_SECS TIMEOUT_SECS)
                         AwaitIdentityReady w)
      | AwaitIdentityReady, VBool identityReady =>
          if negb identityReady
          then Some (catch (Js.newError
                 "Identity not available after registration - this may indicate a network issue.") w)
          else
            let w := assign (setPhase done) w in
            Some (dispatch (completed (controlAddress (vars w)) (privateAddress (vars w)))
                           (withPending None w))
      | _, _ => None
      end
  end.

(** The component as created, before [onMount] runs. *)
Definition created (name : string) (selectedNamespace : Types.NamespaceOption)
    (referralCode : string) (t : Host.Timers) : World :=
  {| name := name; selectedNamespace := selectedNamespace; referralCode := referralCode;
     vars := {| isRoot := false; controlAddress := ""; privateAddress := "";
                commitTxid := ""; finalizeTxid := ""; phase := idle; errorMsg := None;
                phaseStartTime := 0; elapsedSeconds := 0; timerInterval := None |};
     timers := t; pending := None; mounted := false; calls := []; emitted := [] |}.

(** [onMount]. *)
Definition onMount (w : World) : World :=
  let w := assign (setIsRoot (isRootNamespace (selectedNamespace w))) w in
  startFlow (withMounted true w).

(** The cleanup [onMount] returns, run when the step is unmounted. *)
Definition cleanup (w : World) : World :=
  let w := match timerInterval (vars w) with
           | Some h => withTimers (Host.clearInterval h (timers w)) w
           | None => w
           end in
  withMounted false w.

(** The host's table is well formed and the id the step holds, if any, is
    one the host has handed out. *)
Definition issued (w : World) : bool :=
  Host.wf (timers w)
  && match timerInterval (vars w) with
     | Some h => bool_decide (h < Host.nextId (timers w))%positive
     | None => true
     end.

(** The polling period and the timeout a waiting command is called with. *)
Definition waitBounds (c : Command) : option (Z * Z) :=
  match c with
  | wait_for_block_increase _ intervalSecs timeoutSecs => Some (intervalSecs, timeoutSecs)
  | wait_for_identity_ready _ intervalSecs timeoutSecs => Some (intervalSecs, timeoutSecs)
  | _ => None
  end.

(** One JavaScript turn. *)
Inductive Turn :=
| ClickTryAgain
| Settled (r : Settle) (now : Z)
| TimerFires (h : positive) (now : Z)
| Unmount.

(** [None] when the turn cannot happen in [w]: the "Try Again" button is
    rendered only under [{#if errorMsg}], a promise settles only if the flow
    awaits one, and an interval fires only while it is live. *)
Definition step (w : World) (t : Turn) : option World :=
  match t with
  | ClickTryAgain =>
      if mounted w && Js.truthyStr (errorMsg (vars w)) && bool_decide (pending w = None)
      then Some (startFlow w) else None
  | Settled r now =>
      match pending w with
      | Some k => resume k r now w
      | None => None
      end
  | TimerFires h now =>
      if Host.runs h Host.ElapsedCb (timers w)
      then Some (assign (setElapsedSeconds ((now - phaseStartTime (vars w)) / 1000)) w)
      else None
  | Unmount => if mounted w then Some (cleanup w) else None
  end.

Fixpoint run (w : World) (ts : list Turn) : option World :=
  match ts with
  | [] => Some w
  | t :: ts => match step w t with Some w' => run w' ts | None => None end
  end.

(** [getProgressPercentage] *)
Definition getProgressPercentage (w : World) : Z :=
  match phase (vars w) with
  | idle | committing => 0
  | waitingCommit => 25
  | finalizing => 50
  | waitingFinalize => 75
  | done => 100
  | error => 0
  end.

(** The step holds every live interval of the table. *)
Definition timerHeld (w : World) : bool :=
  bool_decide (map_Forall (λ h _, timerInterval (vars w) = Some h)
                          (Host.live (timers w))).

(** How the phase, the error message and the timer go with the place where
    [startFlow] is suspended. *)
Definition coherent (w : World) : Prop :=
  match pending w with
  | Some AwaitControlAddress | Some AwaitCommit =>
      phase (vars w) = committing ∧ errorMsg (vars w) = None
      ∧ timerInterval (vars w) = None
  | Some (AwaitCommitBlock _) =>
      phase (vars w) = waitingCommit ∧ errorMsg (vars w) = None
  | Some (AwaitPrivateAddress _) | Some AwaitFinalize =>
      phase (vars w) = finalizing ∧ errorMsg (vars w) = None
      ∧ timerInterval (vars w) = None
  | Some AwaitFinalizeBlock =>
      phase (vars w) = waitingFinalize ∧ errorMsg (vars w) = None
  | Some AwaitIdentityReady =>
      phase (vars w) = waitingFinalize ∧ errorMsg (vars w) = None
      ∧ timerInterval (vars w) = None
  | None =>
      timerInterval (vars w) = None
      ∧ ((phase (vars w) = error ∧ is_Some (errorMsg (vars w)))
         ∨ (phase (vars w) = done ∧ errorMsg (vars w) = None))
  end.

End RegisterIdentityStep.

(** ** CurrencyConversionStep.svelte *)

Module CurrencyConversionStep.

(** The fields of [selectedPaymentOption] the step reads. *)
Record PaymentOption := {
  currencyName : string;
  requiredAmount : Qc
}.

Record AddressWithBalance := {
  address : string;
  hasEnoughBalance : bool;
  availableAmount : Qc
}.

(** Address selection and amounts. *)
Record Setup := {
  addresses : list AddressWithBalance;
  selectedSourceAddress : string;
  selectedDestinationAddress : string;
  loading : bool;
  error : option string;
  conversionRate : option Qc;
  totalSourceCurrencyBalance : Qc;
  sourceAmountToSend : Qc;
  amountWithBuffer : Qc;
  targetAmountNeeded : Qc
}.

(** "Conversion execution state". *)
Record Exec := {
  converting : bool;
  conversionStarted : bool;
  conversionTxid : option string;
  conversionError : option string;
  pollingInterval : option positive;
  baselineBalance : Qc;
  conversionCompleted : bool;
  actualAmountReceived : Qc
}.

(** "Timing tracking for dynamic messages". *)
Record Timing := {
  conversionStartTime : Z;
  elapsedSeconds : Z;
  timerInterval : option positive
}.

Inductive Command :=
| get_address_currency_balance (address currency : string)
| send_currency_conversion (fromAddress toAddress fromCurrency toCurrency : string) (amount : Qc).

Inductive Emitted :=
| completed (txid : string) (actualAmountReceived : Qc).

Record World := {
  (* props *)
  selectedPaymentOption : option PaymentOption;
  selectedNamespace : Types.NamespaceOption;
  (* variables *)
  setup : Setup;
  exec : Exec;
  timing : Timing;
  (* the host's timers and the backend calls still outstanding *)
  timers : Host.Timers;
  initPending : nat;       (* [initialize] runs awaiting wallet data *)
  baselinePending : nat;   (* [startConversion] runs awaiting the baseline *)
  sendPending : nat;       (* [startConversion] runs awaiting the submission *)
  pollPending : nat;       (* poll ticks awaiting the balance *)
  mounted : bool;
  (* what was observed *)
  calls : list Command;
  ticks : nat;             (* poll callbacks run so far *)
  emitted : list Emitted
}.

Definition withSetup (x : Setup) (w : World) : World :=
  {| selectedPaymentOption := selectedPaymentOption w; selectedNamespace := selectedNamespace w;
     setup := x; exec := exec w; timing := timing w; timers := timers w;
     initPending := initPending w; baselinePending := baselinePending w;
     sendPending := sendPending w; pollPending := pollPending w; mounted := mounted w;
     calls := calls w; ticks := ticks w; emitted := emitted w |}.

Definition withExec (x : Exec) (w : World) : World :=
  {| selectedPaymentOption := selectedPaymentOption w; selectedNamespace := selectedNamespace w;
     setup := setup w; exec := x; timing := timing w; timers := timers w;
     initPending := initPending w; baselinePending := baselinePending w;
     sendPending := sendPending w; pollPending := pollPending w; mounted := mounted w;
     calls := calls w; ticks := ticks w; emitted := emitted w |}.

Definition withTiming (x : Timing) (w : World) : World :=
  {| selectedPaymentOption := selectedPaymentOption w; selectedNamespace := selectedNamespace w;
     setup := setup w; exec := exec w; timing := x; timers := timers w;
     initPending := initPending w; baselinePending := baselinePending w;
     sendPending := sendPending w; pollPending := pollPending w; mounted := mounted w;
     calls := calls w; ticks := ticks w; emitted := emitted w |}.

Definition withTimers (x : Host.Timers) (w : World) : World :=
  {| selectedPaymentOption := selectedPaymentOption w; selectedNamespace := selectedNamespace w;
     setup := setup w; exec := exec w; timing := timing w; timers := x;
     initPending := initPending w; baselinePending := baselinePending w;
     sendPending := sendPending w; pollPending := pollPending w; mounted := mounted w;
     calls := calls w; ticks := ticks w; emitted := emitted w |}.

(** The four counters of outstanding calls, set together. *)
Definition withPending (i b s p : nat) (w : World) : World :=
  {| selectedPaymentOption := selectedPaymentOption w; selectedNamespace := selectedNamespace w;
     setup := setup w; exec := exec w; timing := timing w; timers := timers w;
     initPending := i; baselinePending := b; sendPending := s; pollPending := p;
     mounted := mounted w; calls := calls w; ticks := ticks w; emitted := emitted w |}.

Definition withMounted (m : bool) (w : World) : World :=
  {| selectedPaymentOption := selectedPaymentOption w; selectedNamespace := selectedNamespace w;
     setup := setup w; exec := exec w; timing := timing w; timers := timers w;
     initPending := initPending w; baselinePending := baselinePending w;
     sendPending := sendPending w; pollPending := pollPending w; mounted := m;
     calls := calls w; ticks := ticks w; emitted := emitted w |}.

(** [invoke(c)]: the call goes out. *)
Definition invoke (c : Command) (w : World) : World :=
  {| selectedPaymentOption := selectedPaymentOption w; selectedNamespace := selectedNamespace w;
     setup := setup w; exec := exec w; timing := timing w; timers := timers w;
     initPending := initPending w; baselinePending := baselinePending w;
     sendPending := sendPending w; pollPending := pollPending w; mounted := mounted w;
     calls := calls w ++ [c]; ticks := ticks w; emitted := emitted w |}.

Definition tick (w : World) : World :=
  {| selectedPaymentOption := selectedPaymentOption w; selectedNamespace := selectedNamespace w;
     setup := setup w; exec := exec w; timing := timing w; timers := timers w;
     initPending := initPending w; baselinePending := baselinePending w;
     sendPending := sendPending w; pollPending := pollPending w; mounted := mounted w;
     calls := calls w; ticks := S (ticks w); emitted := emitted w |}.

Definition dispatch (e : Emitted) (w : World) : World :=
  {| selectedPaymentOption := selectedPaymentOption w; selectedNamespace := selectedNamespace w;
     setup := setup w; exec := exec w; timing := timing w; timers := timers w;
     initPending := initPending w; baselinePending := baselinePending w;
     sendPending := sendPending w; pollPending := pollPending w; mounted := mounted w;
     calls := calls w; ticks := ticks w; emitted := emitted w ++ [e] |}.

(** *** Reactive declarations *)

Definition sourceCurrency (w : World) : string :=
  match selectedPaymentOption w with
  | Some p => currencyName p
  | None => ""
  end.

Definition targetCurrency (w : World) : string :=
  Types.name (selectedNamespace w).

Definition hasValidSourceAddress (w : World) : bool :=
  let s := setup w in
  if bool_decide (selectedSourceAddress s = "*")
  then bool_decide (amountWithBuffer s ≤ totalSourceCurrencyBalance s)%Qc
  else existsb (λ addr, bool_decide (address addr = selectedSourceAddress s)
                        && hasEnoughBalance addr) (addresses s).

(** Truthiness of [number | null]. *)
Definition truthyNum (o : option Qc) : bool :=
  match o with
  | Some q => negb (bool_decide (q = 0%Qc))
  | None => false
  end.

Definition internalCanProceed (w : World) : bool :=
  negb (converting (exec w)) && negb (conversionStarted (exec w))
  && negb (bool_decide (selectedSourceAddress (setup w) = ""))
  && negb (bool_decide (selectedDestinationAddress (setup w) = ""))
  && truthyNum (conversionRate (setup w))
  && hasValidSourceAddress w
  && bool_decide (0 < amountWithBuffer (setup w))%Qc.

(** *** Functions *)

(** [Math.round(amount * 100000000) / 100000000] *)
Definition roundToSatoshis (amount : Qc) : Qc :=
  (Qc_of_Z (Qfloor (amount * Qc_of_Z 100000000 + Q2Qc (1 # 2))%Qc)
   / Qc_of_Z 100000000)%Qc.

Definition startTimer (now : Z) (w : World) : World :=
  let w := withTiming {| conversionStartTime := now; elapsedSeconds := 0;
                         timerInterval := timerInterval (timing w) |} w in
  let w := match timerInterval (timing w) with
           | Some h => withTimers (Host.clearInterval h (timers w)) w
           | None => w
           end in
  let ht := Host.setInterval Host.ElapsedCb (timers w) in
  withTiming {| conversionStartTime := conversionStartTime (timing w);
                elapsedSeconds := elapsedSeconds (timing w);
                timerInterval := Some ht.1 |} (withTimers ht.2 w).

Definition stopTimer (w : World) : World :=
  match timerInterval (timing w) with
  | Some h =>
      withTiming {| conversionStartTime := conversionStartTime (timing w);
                    elapsedSeconds := elapsedSeconds (timing w);
                    timerInterval := None |}
                 (withTimers (Host.clearInterval h (timers w)) w)
  | None => w
  end.

Definition setPollingInterval (h : option positive) (x : Exec) : Exec :=
  {| converting := converting x; conversionStarted := conversionStarted x;
     conversionTxid := conversionTxid x; conversionError := conversionError x;
     pollingInterval := h; baselineBalance := baselineBalance x;
     conversionCompleted := conversionCompleted x;
     actualAmountReceived := actualAmountReceived x |}.

(** [startPolling]: the new interval's id overwrites [pollingInterval]. *)
Definition startPolling (w : World) : World :=
  let ht := Host.setInterval Host.PollCb (timers w) in
  withExec (setPollingInterval (Some ht.1) (exec w)) (withTimers ht.2 w).

Definition clearPolling (w : World) : World :=
  match pollingInterval (exec w) with
  | Some h =>
      withExec (setPollingInterval None (exec w))
               (withTimers (Host.clearInterval h (timers w)) w)
  | None => w
  end.

Definition completeConversion (newFundsReceived : Qc) (w : World) : World :=
  let w := clearPolling w in
  let w := stopTimer w in
  let w := withExec {| converting := false; conversionStarted := false;
                       conversionTxid := conversionTxid (exec w);
                       conversionError := conversionError (exec w);
                       pollingInterval := pollingInterval (exec w);
                       baselineBalance := baselineBalance (exec w);
                       conversionCompleted := true;
                       actualAmountReceived := newFundsReceived |} w in
  dispatch (completed (default "" (conversionTxid (exec w))) newFundsReceived) w.

(** [initialize] up to its first [await]. *)
Definition initialize (w : World) : World :=
  let s := setup w in
  let required := match selectedPaymentOption w with
                  | Some p => requiredAmount p
                  | None => 0%Qc
                  end in
  let source := roundToSatoshis required in
  let w := withSetup {| addresses := addresses s;
                        selectedSourceAddress := selectedSourceAddress s;
                        selectedDestinationAddress := selectedDestinationAddress s;
                        loading := true; error := None;
                        conversionRate := conversionRate s;
                        totalSourceCurrencyBalance := totalSourceCurrencyBalance s;
                        sourceAmountToSend := source;
                        amountWithBuffer := roundToSatoshis (source * Q2Qc (11 # 10))%Qc;
                        targetAmountNeeded := targetAmountNeeded s |} w in
  withPending (S (initPending w)) (baselinePending w) (sendPending w) (pollPending w) w.

(** What the backend delivered to [estimateTargetAmount] and to
    [fetchAddressesAndBalances]; [fetched] is the address list as the function
    leaves it (source-currency holders, sorted), [rate] the answer to
    [fetchConversionRate] ([None] when that call rejects). *)
Inductive WalletData :=
| WalletLoaded (fetched : list (string * Qc)) (rate : option Qc)
| WalletFailed (e : Js.Thrown).

Definition mkAddress (buffer : Qc) (a : string * Qc) : AddressWithBalance :=
  {| address := a.1; hasEnoughBalance := bool_decide (buffer ≤ a.2)%Qc;
     availableAmount := a.2 |}.

Definition sumAvailable (l : list AddressWithBalance) : Qc :=
  foldl (λ sum addr, (sum + availableAmount addr)%Qc) 0%Qc l.

(** The rest of [initialize]: [estimateTargetAmount], then
    [fetchAddressesAndBalances], then [loading = false]. *)
Definition initializeSettled (estimate : option Qc) (d : WalletData) (w : World) : World :=
  let s := setup w in
  let target :=
    if bool_decide (sourceAmountToSend s = 0%Qc)
       || bool_decide (sourceCurrency w = "") || bool_decide (targetCurrency w = "")
    then targetAmountNeeded s
    else default 0%Qc estimate in
  let s' :=
    if bool_decide (amountWithBuffer s = 0%Qc) then
      {| addresses := addresses s;
         selectedSourceAddress := selectedSourceAddress s;
         selectedDestinationAddress := selectedDestinationAddress s;
         loading := false; error := error s;
         conversionRate := conversionRate s;
         totalSourceCurrencyBalance := totalSourceCurrencyBalance s;
         sourceAmountToSend := sourceAmountToSend s;
         amountWithBuffer := amountWithBuffer s;
         targetAmountNeeded := target |}
    else
      match d with
      | WalletLoaded fetched rate =>
          let addrs := map (mkAddress (amountWithBuffer s)) fetched in
          {| addresses := addrs;
             selectedSourceAddress := selectedSourceAddress s;
             selectedDestinationAddress :=
               match addrs with
               | a :: _ => address a
               | [] => selectedDestinationAddress s
               end;
             loading := false; error := error s;
             conversionRate :=
               if bool_decide (sourceCurrency w = "") || bool_decide (targetCurrency w = "")
               then conversionRate s else rate;
             totalSourceCurrencyBalance := sumAvailable addrs;
             sourceAmountToSend := sourceAmountToSend s;
             amountWithBuffer := amountWithBuffer s;
             targetAmountNeeded := target |}
      | WalletFailed e =>
          {| addresses := addresses s;
             selectedSourceAddress := selectedSourceAddress s;
             selectedDestinationAddress := selectedDestinationAddress s;
             loading := false;
             error := Some ("Failed to load wallet data: " ++ Js.messageOrString e);
             conversionRate := conversionRate s;
             totalSourceCurrencyBalance := totalSourceCurrencyBalance s;
             sourceAmountToSend := sourceAmountToSend s;
             amountWithBuffer := amountWithBuffer s;
             targetAmountNeeded := target |}
      end in
  withSetup s' (withPending (pred (initPending w)) (baselinePending w)
                            (sendPending w) (pollPending w) w).

(** [startConversion] up to its first [await]. *)
Definition startConversion (w : World) : World :=
  if negb (internalCanProceed w) then w
  else
    let x := exec w in
    let w := withExec {| converting := true; conversionStarted := conversionStarted x;
                         conversionTxid := conversionTxid x; conversionError := None;
                         pollingInterval := pollingInterval x;
                         baselineBalance := baselineBalance x;
                         conversionCompleted := conversionCompleted x;
                         actualAmountReceived := actualAmountReceived x |} w in
    let w := invoke (get_address_currency_balance
                       (selectedDestinationAddress (setup w)) (targetCurrency w)) w in
    withPending (initPending w) (S (baselinePending w)) (sendPending w) (pollPending w) w.

(** The [catch] block of [startConversion]. *)
Definition startFailed (e : Js.Thrown) (w : World) : World :=
  let x := exec w in
  withExec {| converting := false; conversionStarted := conversionStarted x;
              conversionTxid := conversionTxid x;
              conversionError :=
                Some ("Failed to start conversion: " ++ Js.messageOrString e);
              pollingInterval := pollingInterval x;
              baselineBalance := baselineBalance x;
              conversionCompleted := conversionCompleted x;
              actualAmountReceived := actualAmountReceived x |} w.

(** [startConversion] after the baseline balance call settles. *)
Definition baselineSettled (r : Js.Thrown + Qc) (w : World) : World :=
  let w := withPending (initPending w) (pred (baselinePending w))
                       (sendPending w) (pollPending w) w in
  match r with
  | inr balance =>
      let x := exec w in
      let w := withExec {| converting := converting x;
                           conversionStarted := conversionStarted x;
                           conversionTxid := conversionTxid x;
                           conversionError := conversionError x;
                           pollingInterval := pollingInterval x;
                           baselineBalance := balance;
                           conversionCompleted := conversionCompleted x;
                           actualAmountReceived := actualAmountReceived x |} w in
      let w := invoke (send_currency_conversion
                         (selectedSourceAddress (setup w))
                         (selectedDestinationAddress (setup w))
                         (sourceCurrency w) (targetCurrency w)
                         (amountWithBuffer (setup w))) w in
      withPending (initPending w) (baselinePending w) (S (sendPending w)) (pollPending w) w
  | inl e => startFailed e w
  end.

(** [startConversion] after the submission settles. *)
Definition sendSettled (r : Js.Thrown + string) (now : Z) (w : World) : World :=
  let w := withPending (initPending w) (baselinePending w)
                       (pred (sendPending w)) (pollPending w) w in
  match r with
  | inr txid =>
      let x := exec w in
      let w := withExec {| converting := converting x; conversionStarted := true;
                           conversionTxid := Some txid;
                           conversionError := conversionError x;
                           pollingInterval := pollingInterval x;
                           baselineBalance := baselineBalance x;
                           conversionCompleted := conversionCompleted x;
                           actualAmountReceived := actualAmountReceived x |} w in
      startPolling (startTimer now w)
  | inl e => startFailed e w
  end.

(** The polling callback up to its [await]. *)
Definition pollFires (w : World) : World :=
  let w := tick w in
  let w := invoke (get_address_currency_balance
                     (selectedDestinationAddress (setup w)) (targetCurrency w)) w in
  withPending (initPending w) (baselinePending w) (sendPending w) (S (pollPending w)) w.

(** The polling callback after the balance call settles. *)
Definition pollSettled (r : Js.Thrown + Qc) (w : World) : World :=
  let w := withPending (initPending w) (baselinePending w)
                       (sendPending w) (pred (pollPending w)) w in
  match r with
  | inr currentBalance =>
      if bool_decide (baselineBalance (exec w) < currentBalance)%Qc
      then completeConversion (currentBalance - baselineBalance (exec w))%Qc w
      else w
  | inl _ => w
  end.

Definition retryConversion (w : World) : World :=
  let x := exec w in
  let w := withExec {| converting := false; conversionStarted := false;
                       conversionTxid := None; conversionError := None;
                       pollingInterval := pollingInterval x;
                       baselineBalance := baselineBalance x;
                       conversionCompleted := false;
                       actualAmountReceived := 0%Qc |} w in
  let w := clearPolling w in
  let w := stopTimer w in
  initialize w.

Definition onDestroy (w : World) : World :=
  let w := match pollingInterval (exec w) with
           | Some h => withTimers (Host.clearInterval h (timers w)) w
           | None => w
           end in
  let w := match timerInterval (timing w) with
           | Some h => withTimers (Host.clearInterval h (timers w)) w
           | None => w
           end in
  withMounted false w.

(** The component as created, before [onMount] runs. *)
Definition created (option : option PaymentOption) (namespace : Types.NamespaceOption)
    (t : Host.Timers) : World :=
  {| selectedPaymentOption := option; selectedNamespace := namespace;
     setup := {| addresses := []; selectedSourceAddress := "*";
                 selectedDestinationAddress := ""; loading := true; error := None;
                 conversionRate := None; totalSourceCurrencyBalance := 0%Qc;
                 sourceAmountToSend := 0%Qc; amountWithBuffer := 0%Qc;
                 targetAmountNeeded := 0%Qc |};
     exec := {| converting := false; conversionStarted := false; conversionTxid := None;
                conversionError := None; pollingInterval := None;
                baselineBalance := 0%Qc; conversionCompleted := false;
                actualAmountReceived := 0%Qc |};
     timing := {| conversionStartTime := 0; elapsedSeconds := 0; timerInterval := None |};
     timers := t; initPending := 0; baselinePending := 0; sendPending := 0;
     pollPending := 0; mounted := false; calls := []; ticks := 0; emitted := [] |}.

Definition onMount (w : World) : World := initialize (withMounted true w).

(** The host's table is well formed and the ids the step holds, if any, are
    ones the host has handed out. *)
Definition issued (w : World) : bool :=
  Host.wf (timers w)
  && match pollingInterval (exec w) with
     | Some h => bool_decide (h < Host.nextId (timers w))%positive
     | None => true
     end
  && match timerInterval (timing w) with
     | Some h => bool_decide (h < Host.nextId (timers w))%positive
     | None => true
     end.

(** The step holds every live poll interval: none has leaked. *)
Definition pollHeld (w : World) : bool :=
  bool_decide (map_Forall (λ h cb, cb = Host.PollCb → pollingInterval (exec w) = Some h)
                          (Host.live (timers w))).

(** The step holds every live elapsed-time interval. *)
Definition elapsedHeld (w : World) : bool :=
  bool_decide (map_Forall (λ h cb, cb = Host.ElapsedCb → timerInterval (timing w) = Some h)
                          (Host.live (timers w))).

(** Which block of the template is rendered: the "Retry"/"Try Again" buttons
    sit in the [error] block and, with [conversionError], in the setup block. *)
Definition retryVisible (w : World) : bool :=
  mounted w && negb (loading (setup w))
  && (Js.truthyStr (error (setup w))
      || (negb (conversionStarted (exec w) || converting (exec w))
          && negb (conversionCompleted (exec w))
          && Js.truthyStr (conversionError (exec w)))).

(** One JavaScript turn. *)
Inductive Turn :=
| ClickStart                                   (* the modal calls [startFunction] *)
| ClickRetry
| InitializeSettled (estimate : option Qc) (d : WalletData)
| BaselineSettled (r : Js.Thrown + Qc)
| SendSettled (r : Js.Thrown + string) (now : Z)
| PollFires (h : positive)
| PollSettled (r : Js.Thrown + Qc)
| TimerFires (h : positive) (now : Z)
| Destroy.

(** [None] when the turn cannot happen in [w]. *)
Definition step (w : World) (t : Turn) : option World :=
  match t with
  | ClickStart =>
      (* the modal starts a conversion only until it has seen ['completed'] *)
      if mounted w && bool_decide (emitted w = []) then Some (startConversion w) else None
  | ClickRetry => if retryVisible w then Some (retryConversion w) else None
  | InitializeSettled estimate d =>
      if bool_decide (0 < initPending w)%nat
      then Some (initializeSettled estimate d w) else None
  | BaselineSettled r =>
      if bool_decide (0 < baselinePending w)%nat then Some (baselineSettled r w) else None
  | SendSettled r now =>
      if bool_decide (0 < sendPending w)%nat then Some (sendSettled r now w) else None
  | PollFires h =>
      if Host.runs h Host.PollCb (timers w) then Some (pollFires w) else None
  | PollSettled r =>
      if bool_decide (0 < pollPending w)%nat then Some (pollSettled r w) else None
  | TimerFires h now =>
      if Host.runs h Host.ElapsedCb (timers w)
      then Some (withTiming
                   {| conversionStartTime := conversionStartTime (timing w);
                      elapsedSeconds := (now - conversionStartTime (timing w)) / 1000;
                      timerInterval := timerInterval (timing w) |} w)
      else None
  | Destroy => if mounted w then Some (onDestroy w) else None
  end.

Fixpoint run (w : World) (ts : list Turn) : option World :=
  match ts with
  | [] => Some w
  | t :: ts => match step w t with Some w' => run w' ts | None => None end
  end.

(** The interval [h] fires once per answer, each balance call settling
    before the next tick. *)
Definition pollRounds (h : positive) (answers : list (Js.Thrown + Qc)) : list Turn :=
  flat_map (λ r, [PollFires h; PollSettled r]) answers.

(** The tick does not see new funds: the call rejects, or the balance is not
    above the baseline. *)
Definition noArrival (w : World) (r : Js.Thrown + Qc) : Prop :=
  match r with
  | inr currentBalance => (currentBalance ≤ baselineBalance (exec w))%Qc
  | inl _ => True
  end.

(** The amount a ['completed'] event reports. *)
Definition amountOf (e : Emitted) : Qc :=
  match e with
  | completed _ actualAmountReceived => actualAmountReceived
  end.

(** The turn in which a submission is accepted. *)
Definition isAcceptedSend (t : Turn) : bool :=
  match t with
  | SendSettled (inr _) _ => true
  | _ => false
  end.

(** What [initialize] makes of the required amount: rounded, 10% added,
    rounded again. *)
Definition bufferedAmount (option : option PaymentOption) : Qc :=
  roundToSatoshis
    (roundToSatoshis (match option with
                      | Some p => requiredAmount p
                      | None => 0%Qc
                      end) * Q2Qc (11 # 10))%Qc.

(** The amount of a submission. *)
Definition sentAmount (c : Command) : option Qc :=
  match c with
  | send_currency_conversion _ _ _ _ amount => Some amount
  | _ => None
  end.

End CurrencyConversionStep.

(** ** IdentityInfoStep.svelte *)

Module IdentityInfoStep.

(** The character class of the regular expression [blockedChars]: slash,
    colon, star, question mark, double quote (code 34), the angle brackets,
    bar, at sign, full stop and closing parenthesis. *)
Definition blockedChars : list ascii :=
  [ "/"; ":"; "*"; "?"; ascii_of_nat 34; "<"; ">"; "|"; "@"; "."; ")" ]%char.

Definition isBlocked (c : ascii) : bool := bool_decide (c ∈ blockedChars).

(** [inputValue.replace(blockedChars, '')] *)
Fixpoint removeBlocked (inputValue : string) : string :=
  match inputValue with
  | EmptyString => EmptyString
  | String c rest =>
      if isBlocked c then removeBlocked rest else String c (removeBlocked rest)
  end.

Record State := {
  name : string;                                      (* bound to the parent *)
  selectedNamespace : option Types.NamespaceOption;
  rootCurrency : option Types.NamespaceOption;        (* [null] until fetched *)
  fieldValue : string                                 (* [target.value] *)
}.

(** This step's [isRootNamespace]: nothing is the root namespace until the
    root currency has been fetched. *)
Definition isRootNamespace (s : State) (namespace : Types.NamespaceOption) : bool :=
  match rootCurrency s with
  | None => false
  | Some root =>
      bool_decide (Types.currency_id namespace = Types.currency_id root)
      || (bool_decide (Js.toLowerCase (Types.name namespace) = "vrsc")
          || bool_decide (Js.toLowerCase (Types.name namespace) = "vrsctest"))
  end.

(** [handleNameInput]; [inputValue] is what the input field holds when the
    event fires.  The field is written back only when something was removed,
    which leaves it equal to the filtered value either way. *)
Definition handleNameInput (inputValue : string) (s : State) : State :=
  let filteredValue := removeBlocked inputValue in
  {| name := filteredValue;
     selectedNamespace := selectedNamespace s;
     rootCurrency := rootCurrency s;
     fieldValue := if bool_decide (filteredValue = inputValue)
                   then inputValue else filteredValue |}.

(** The reactive declaration [previewId]. *)
Definition previewId (s : State) : string :=
  match selectedNamespace s with
  | Some namespace =>
      if bool_decide (name s = "") then ""
      else if isRootNamespace s namespace then name s ++ "@"
      else name s ++ "." ++ Types.name namespace ++ "@"
  | None => ""
  end.

(** How often the character [c] occurs in [s]. *)
Fixpoint occurrences (c : ascii) (s : string) : nat :=
  match s with
  | EmptyString => 0
  | String d rest => (if bool_decide (d = c) then 1 else 0) + occurrences c rest
  end.

(** [calculateReferralDiscount] and [calculateDiscountedPrice], written the
    same way in the registration modal.  Both work on [number]s, that is on
    doubles: every operation rounds to the nearest double. *)
Definition calculateReferralDiscount (referralLevels : float) : float :=
  (1 / (referralLevels + 2))%float.

Definition calculateDiscountedPrice (originalPrice referralLevels : float) : float :=
  let discount := calculateReferralDiscount referralLevels in
  (originalPrice * (1 - discount))%float.




End IdentityInfoStep.

(** ** FundingModal.svelte (the version with automatic funding) *)

Module FundingModal.

Inductive Command :=
| fund_private_address_for_messages_cmd (zAddress currency : string).

Inductive Emitted :=
| close (success : bool).

Record World := {
  (* props *)
  privateAddress : string;
  currencySymbol : string;
  (* variables *)
  walletBalance : option Qc;
  isFunding : bool;
  fundingError : option string;
  (* what was observed *)
  calls : list Command;
  emitted : list Emitted
}.

Definition UTXO_AMOUNT : Qc := Q2Qc (1 # 10000).
Definition UTXO_COUNT : Qc := 1%Qc.
Definition TOTAL_FUNDING_AMOUNT : Qc := (UTXO_AMOUNT * UTXO_COUNT)%Qc.

Definition estimatedFees : Qc := Q2Qc (1 # 10000).
Definition totalRequired : Qc := (TOTAL_FUNDING_AMOUNT + estimatedFees)%Qc.

Definition canAffordFunding (w : World) : bool :=
  match walletBalance w with
  | Some balance => bool_decide (totalRequired ≤ balance)%Qc
  | None => false
  end.

(** [handleAutoFunding] up to its [await]. *)
Definition handleAutoFunding (w : World) : World :=
  if negb (canAffordFunding w) || bool_decide (privateAddress w = "") || isFunding w
  then w
  else
    {| privateAddress := privateAddress w; currencySymbol := currencySymbol w;
       walletBalance := walletBalance w;
       isFunding := true; fundingError := None;
       calls := calls w ++ [fund_private_address_for_messages_cmd
                              (privateAddress w) (currencySymbol w)];
       emitted := emitted w |}.

(** [handleAutoFunding] after the funding call settles. *)
Definition fundingSettled (r : Js.Thrown + string) (w : World) : World :=
  match r with
  | inr _ =>
      {| privateAddress := privateAddress w; currencySymbol := currencySymbol w;
         walletBalance := walletBalance w; isFunding := isFunding w;
         fundingError := fundingError w; calls := calls w;
         emitted := emitted w ++ [close true] |}
  | inl e =>
      {| privateAddress := privateAddress w; currencySymbol := currencySymbol w;
         walletBalance := walletBalance w; isFunding := false;
         fundingError := Some (match e with
                               | Js.ThrownString s => s
                               | Js.ThrownObject _ _ => "Funding failed. Please try again."
                               end);
         calls := calls w; emitted := emitted w |}
  end.

End FundingModal.

(** ** The bounded wait behind [wait_for_block_increase] *)

Module Tracker.

(** Modelled from the spec: the commands [wait_for_block_increase] and
    [wait_for_identity_ready] poll inside the backend, which is not among the
    sources.  The spec's tracker: "Poll tick (internal, fires every
    intervalMs) - invokes readinessPredicate; on true result, cancels the
    timer, transitions to succeeded [...] If timeoutMs is set and elapsed time
    exceeds it, transitions to failed". *)
Inductive Phase := waiting | succeeded | failed.

Record Config := {
  intervalMs : Z;
  timeoutMs : option Z       (* [None]: no timeout *)
}.

Record State := {
  phase : Phase;
  elapsedMs : Z;
  timerActive : bool;
  invocations : nat          (* calls of the readiness predicate so far *)
}.

Definition started : State :=
  {| phase := waiting; elapsedMs := 0; timerActive := true; invocations := 0 |}.

Definition timedOut (c : Config) (elapsed : Z) : bool :=
  match timeoutMs c with
  | Some t => (t <? elapsed)%Z
  | None => false
  end.

(** Modelled from the spec: one poll tick; [ready] is what the readiness
    predicate answers when the tick invokes it.  A cancelled timer fires no
    tick. *)
Definition pollTick (c : Config) (s : State) (ready : bool) : State :=
  if negb (timerActive s) then s
  else
    let elapsed := (elapsedMs s + intervalMs c)%Z in
    if ready then
      {| phase := succeeded; elapsedMs := elapsed; timerActive := false;
         invocations := S (invocations s) |}
    else if timedOut c elapsed then
      {| phase := failed; elapsedMs := elapsed; timerActive := false;
         invocations := S (invocations s) |}
    else
      {| phase := waiting; elapsedMs := elapsed; timerActive := true;
         invocations := S (invocations s) |}.

Definition runTicks (c : Config) (s : State) (answers : list bool) : State :=
  foldl (pollTick c) s answers.

(** The number of the tick at which the elapsed time first exceeds
    [timeout]. *)
Definition lastTick (c : Config) (timeout : Z) : nat :=
  S (Z.to_nat (timeout / intervalMs c)).

(** Modelled from the spec: what the waiting command resolves to. *)
Definition answer (s : State) : bool :=
  match phase s with
  | succeeded => true
  | _ => false
  end.

End Tracker.

Module R := RegisterIdentityStep.
Module C := CurrencyConversionStep.
Module I := IdentityInfoStep.
Module F := FundingModal.

(** ** Invariants of the conversion step used in the proofs *)

(** No live interval runs the callback [cb]. *)
Definition noneRuns (cb : Host.Callback) (t : Host.Timers) : Prop :=
  ∀ h, Host.runs h cb t = false.



(** ** Sample data for the worked examples *)

Module Samples.

Definition vrsc : Types.NamespaceOption :=
  {| Types.currency_id := "vrsc-currency"; Types.name := "VRSC";
     Types.registration_fee := Qc_of_Z 100; Types.options := 41;
     Types.id_referral_levels := Qc_of_Z 3 |}.

Definition insufficient : Js.Thrown := Js.ThrownString "insufficient funds".

(** The register step, mounted for [alice@]; the control address arrives and
    the commitment is rejected. *)
Definition regMounted : R.World :=
  R.onMount (R.created "alice" vrsc "" Host.noTimers).

Definition regToCommit : list R.Turn :=
  [R.Settled (R.Resolved (R.VString "RControl")) 0].

Definition regRejected : list R.Turn :=
  regToCommit ++ [R.Settled (R.Rejected insufficient) 5].

Definition regAwaitingCommit : R.World :=
  default regMounted (R.run regMounted regToCommit).

Definition regFailed : R.World :=
  default regMounted (R.run regMounted regRejected).

(** The commitment is accepted and the step waits for the next block. *)
Definition regToWaiting : list R.Turn :=
  regToCommit ++ [R.Settled (R.Resolved (R.VCommit "commit-tx" "reservation")) 1000].

(** The conversion step: 20 DAI are required, one address holds 50. *)
Definition payWithDai : C.PaymentOption :=
  {| C.currencyName := "DAI"; C.requiredAmount := Qc_of_Z 20 |}.

Definition convMounted : C.World :=
  C.onMount (C.created (Some payWithDai) vrsc Host.noTimers).

Definition walletLoaded : C.WalletData :=
  C.WalletLoaded [("RSource", Qc_of_Z 50)] (Some (Qc_of_Z 5)).

Definition toSetup : list C.Turn :=
  [C.InitializeSettled (Some (Qc_of_Z 110)) walletLoaded].

Definition toSubmitted : list C.Turn :=
  toSetup ++ [C.ClickStart; C.BaselineSettled (inr (Qc_of_Z 0))].

(** The submission is accepted: timer 1 counts the seconds, timer 2 polls. *)
Definition toPolling : list C.Turn :=
  toSubmitted ++ [C.SendSettled (inr "txid-1") 1000].

Definition convSubmitted : C.World :=
  default convMounted (C.run convMounted toSubmitted).


(** The name step with a namespace that is not the root one selected. *)
Definition bitcoins : Types.NamespaceOption :=
  {| Types.currency_id := "bitcoins-currency"; Types.name := "bitcoins";
     Types.registration_fee := Qc_of_Z 1; Types.options := 41;
     Types.id_referral_levels := Qc_of_Z 0 |}.

Definition nameStep : IdentityInfoStep.State :=
  {| IdentityInfoStep.name := ""; IdentityInfoStep.selectedNamespace := Some bitcoins;
     IdentityInfoStep.rootCurrency := Some vrsc; IdentityInfoStep.fieldValue := "" |}.

(** The funding modal with exactly the required balance. *)
Definition fundable : FundingModal.World :=
  {| FundingModal.privateAddress := "zs1private"; FundingModal.currencySymbol := "VRSC";
     FundingModal.walletBalance := Some (Q2Qc (2 # 10000));
     FundingModal.isFunding := false; FundingModal.fundingError := None;
     FundingModal.calls := []; FundingModal.emitted := [] |}.

(** The first poll tick has fired and its balance call is in flight. *)
Definition convTicking : C.World :=
  default convMounted (C.run convMounted (toPolling ++ [C.PollFires 2])).

(** A submission fails, the reload after "Try Again" fails too, and the next
    submission is still in flight when "Retry" and "Start Conversion" are
    clicked again; both submissions are then accepted. *)
Definition raceTrace : list C.Turn :=
  toSetup ++
  [C.ClickStart; C.BaselineSettled (inr (Qc_of_Z 0));
   C.SendSettled (inl insufficient) 900;
   C.ClickRetry;
   C.InitializeSettled None (C.WalletFailed (Js.ThrownString "wallet locked"));
   C.ClickStart;
   C.ClickRetry;
   C.ClickStart;
   C.BaselineSettled (inr (Qc_of_Z 0)); C.BaselineSettled (inr (Qc_of_Z 0));
   C.SendSettled (inr "txid-A") 1000; C.SendSettled (inr "txid-B") 1001].

End Samples.

(** * Properties *)

(** ** Timers *)

Section HostFacts.
Import Host.

Lemma clearInterval_idem h t :
  clearInterval h (clearInterval h t) = clearInterval h t.
Proof.
  unfold clearInterval; simpl. f_equal.
  apply map_eq. intros i. destruct (decide (h = i)) as [->|Hne].
  - by rewrite !lookup_delete_eq.
  - by rewrite !lookup_delete_ne.
Qed.

Lemma clearInterval_comm h1 h2 t :
  clearInterval h1 (clearInterval h2 t) = clearInterval h2 (clearInterval h1 t).
Proof.
  unfold clearInterval; simpl. f_equal. apply delete_delete.
Qed.

Lemma isLive_clearInterval h t : isLive h (clearInterval h t) = false.
Proof.
  unfold isLive, clearInterval; simpl. rewrite lookup_delete_eq.
  apply bool_decide_eq_false. intros [x Hx]. discriminate.
Qed.

Lemma isLive_clearInterval_mono h h' t :
  isLive h t = false → isLive h (clearInterval h' t) = false.
Proof.
  unfold isLive, clearInterval; simpl. rewrite !bool_decide_eq_false.
  intros Hn [x Hx]. apply Hn. exists x.
  apply lookup_delete_Some in Hx. tauto.
Qed.

Lemma runs_isLive h cb t : runs h cb t = true → isLive h t = true.
Proof.
  unfold runs, isLive. rewrite !bool_decide_eq_true. intros ->. by eexists.
Qed.

Lemma not_isLive_runs h cb t : isLive h t = false → runs h cb t = false.
Proof.
  intros Hn. destruct (runs h cb t) eqn:E; [|done].
  apply runs_isLive in E. congruence.
Qed.

Lemma runs_setInterval cb t :
  runs (setInterval cb t).1 cb (setInterval cb t).2 = true.
Proof.
  unfold runs, setInterval; simpl. apply bool_decide_eq_true.
  apply lookup_insert_eq.
Qed.

Lemma isLive_setInterval_other h cb t :
  h ≠ nextId t → isLive h (setInterval cb t).2 = isLive h t.
Proof.
  intros Hne. unfold isLive, setInterval; simpl.
  by rewrite lookup_insert_ne.
Qed.

(** An id the host hands out is not live before. *)
Lemma fresh_setInterval cb t :
  wf t = true → isLive (setInterval cb t).1 t = false.
Proof.
  unfold wf, isLive, setInterval; simpl.
  rewrite bool_decide_eq_true, bool_decide_eq_false.
  intros Hwf [x Hx]. specialize (Hwf _ _ Hx). simpl in Hwf. lia.
Qed.

Lemma wf_setInterval cb t : wf t = true → wf (setInterval cb t).2 = true.
Proof.
  unfold wf, setInterval; simpl. rewrite !bool_decide_eq_true.
  intros Hwf. apply map_Forall_insert_2; [lia|].
  eapply map_Forall_impl; [exact Hwf|]. simpl. intros; lia.
Qed.

Lemma wf_clearInterval h t : wf t = true → wf (clearInterval h t) = true.
Proof.
  unfold wf, clearInterval; simpl. rewrite !bool_decide_eq_true.
  intros Hwf. by apply map_Forall_delete.
Qed.

End HostFacts.

(** ** The ids a step holds were handed out by the host *)

Lemma R_issued_ext w w' :
  R.timers w' = R.timers w →
  R.timerInterval (R.vars w') = R.timerInterval (R.vars w) →
  R.issued w' = R.issued w.
Proof. unfold R.issued. by intros -> ->. Qed.

Lemma R_issued_stopTimer w : R.issued w = true → R.issued (R.stopTimer w) = true.
Proof.
  unfold R.issued, R.stopTimer. rewrite andb_true_iff. intros [Hwf Hti].
  destruct (R.timerInterval (R.vars w)) as [h|] eqn:E; simpl.
  - by rewrite wf_clearInterval.
  - by rewrite E, Hwf.
Qed.

Lemma R_issued_startTimer now w : R.issued w = true → R.issued (R.startTimer now w) = true.
Proof.
  unfold R.issued. rewrite andb_true_iff. intros [Hwf _].
  destruct w as [n ns rc [ir ca pa ct ft ph em pst es ti] t p m c e].
  simpl in *. unfold R.startTimer; simpl.
  destruct ti as [h|]; simpl; apply andb_true_iff; split;
    try (apply bool_decide_eq_true; lia).
  - apply (wf_setInterval Host.ElapsedCb (Host.clearInterval h t)).
    by apply wf_clearInterval.
  - by apply (wf_setInterval Host.ElapsedCb t).
Qed.

Lemma R_issued_catch e w : R.issued w = true → R.issued (R.catch e w) = true.
Proof.
  intros Hi. apply R_issued_stopTimer in Hi. revert Hi.
  unfold R.catch. by destruct (R.stopTimer w) as [n ns rc []].
Qed.

Lemma R_issued_assign f w :
  (∀ s, R.timerInterval (f s) = R.timerInterval s) →
  R.issued (R.assign f w) = R.issued w.
Proof. intros Hf. unfold R.issued. simpl. by rewrite Hf. Qed.

Lemma R_issued_invoke c k w : R.issued (R.invoke c k w) = R.issued w.
Proof. done. Qed.

Lemma R_issued_dispatch e w : R.issued (R.dispatch e w) = R.issued w.
Proof. done. Qed.

Lemma R_issued_withPending k w : R.issued (R.withPending k w) = R.issued w.
Proof. done. Qed.

Lemma R_step_issued w t w' :
  R.issued w = true → R.step w t = Some w' → R.issued w' = true.
Proof.
  intros Hi. destruct t as [|r now|h now|]; cbn [R.step].
  - destruct (_ && _); intros [= <-]. unfold R.startFlow.
    by rewrite R_issued_invoke, !R_issued_assign.
  - destruct (R.pending w) as [k|]; [|done].
    destruct r as [v|e]; cbn [R.resume]; [|intros [= <-]; by apply R_issued_catch].
    destruct k, v; try done.
    + intros [= <-]. by rewrite R_issued_invoke, R_issued_assign.
    + intros [= <-]. rewrite R_issued_invoke. apply R_issued_startTimer.
      by rewrite !R_issued_assign.
    + apply R_issued_stopTimer in Hi.
      destruct b; cbn [negb]; intros [= <-].
      * by rewrite R_issued_invoke, R_issued_assign.
      * by apply R_issued_catch.
    + intros [= <-]. by rewrite R_issued_invoke, R_issued_assign.
    + intros [= <-]. rewrite R_issued_invoke. apply R_issued_startTimer.
      by rewrite !R_issued_assign.
    + apply R_issued_stopTimer in Hi.
      destruct b; cbn [negb]; intros [= <-].
      * by rewrite R_issued_invoke.
      * by apply R_issued_catch.
    + destruct b; cbn [negb]; intros [= <-].
      * by rewrite R_issued_dispatch, R_issued_withPending, R_issued_assign.
      * by apply R_issued_catch.
  - destruct (Host.runs _ _ _); intros [= <-]. by rewrite R_issued_assign.
  - destruct (R.mounted w); intros [= <-]. revert Hi.
    unfold R.issued, R.cleanup. rewrite andb_true_iff. intros [Hwf Hti].
    destruct w as [n ns rc [ir ca pa ct ft ph em pst es [h|]] t p m c e]; simpl in *.
    + by rewrite wf_clearInterval.
    + by rewrite Hwf.
Qed.

Lemma R_run_issued ts : ∀ w w',
  R.issued w = true → R.run w ts = Some w' → R.issued w' = true.
Proof.
  induction ts as [|t ts IH]; simpl; intros w w' Hi.
  - by intros [= <-].
  - destruct (R.step w t) as [w1|] eqn:E; [|done].
    apply IH. by eapply R_step_issued.
Qed.

Lemma C_issued_ext w w' :
  C.timers w' = C.timers w →
  C.pollingInterval (C.exec w') = C.pollingInterval (C.exec w) →
  C.timerInterval (C.timing w') = C.timerInterval (C.timing w) →
  C.issued w' = C.issued w.
Proof. unfold C.issued. by intros -> -> ->. Qed.








(** ** Cancelling *)

Lemma R_stopTimer_cleared w :
  R.timerInterval (R.vars (R.stopTimer w)) = None.
Proof.
  unfold R.stopTimer. destruct (R.timerInterval (R.vars w)) eqn:E; simpl; done.
Qed.

Lemma C_stopTimer_cleared w :
  C.timerInterval (C.timing (C.stopTimer w)) = None.
Proof.
  unfold C.stopTimer. destruct (C.timerInterval (C.timing w)) eqn:E; simpl; done.
Qed.

Lemma C_clearPolling_cleared w :
  C.pollingInterval (C.exec (C.clearPolling w)) = None.
Proof.
  unfold C.clearPolling. destruct (C.pollingInterval (C.exec w)) eqn:E; simpl; done.
Qed.

(** C6: cancelling is idempotent.  [stopTimer] (both steps) clears the timer it
    holds and forgets it; the teardown hooks ([onDestroy], the cleanup returned
    by [onMount]) clear every timer the step holds.  Running any of them a
    second time changes nothing; none of them can raise, clearing an interval
    that is not live being a no-op of the host. *)
Theorem C6_cancel_idempotent :
  (∀ w : R.World,
      R.stopTimer (R.stopTimer w) = R.stopTimer w
      ∧ R.timerInterval (R.vars (R.stopTimer w)) = None
      ∧ (∀ h, R.timerInterval (R.vars w) = Some h →
              Host.isLive h (R.timers (R.stopTimer w)) = false)
      ∧ (R.timerInterval (R.vars w) = None → R.stopTimer w = w)
      ∧ R.cleanup (R.cleanup w) = R.cleanup w
      ∧ (∀ h, R.timerInterval (R.vars w) = Some h →
              Host.isLive h (R.timers (R.cleanup w)) = false))
  ∧ (∀ w : C.World,
      C.stopTimer (C.stopTimer w) = C.stopTimer w
      ∧ C.timerInterval (C.timing (C.stopTimer w)) = None
      ∧ (∀ h, C.timerInterval (C.timing w) = Some h →
              Host.isLive h (C.timers (C.stopTimer w)) = false)
      ∧ (C.timerInterval (C.timing w) = None → C.stopTimer w = w)
      ∧ C.onDestroy (C.onDestroy w) = C.onDestroy w
      ∧ (∀ h, C.pollingInterval (C.exec w) = Some h ∨ C.timerInterval (C.timing w) = Some h →
              Host.isLive h (C.timers (C.onDestroy w)) = false)).
Proof.
  split; intros w.
  - repeat split.
    + unfold R.stopTimer at 1. by rewrite R_stopTimer_cleared.
    + apply R_stopTimer_cleared.
    + intros h Hh. unfold R.stopTimer. rewrite Hh. simpl.
      apply isLive_clearInterval.
    + intros Hn. unfold R.stopTimer. by rewrite Hn.
    + destruct w as [n ns rc [ir ca pa ct ft ph em pst es ti] t p m c e].
      unfold R.cleanup; simpl. destruct ti; simpl; [|done].
      by rewrite clearInterval_idem.
    + intros h Hh. unfold R.cleanup. rewrite Hh. simpl.
      apply isLive_clearInterval.
  - repeat split.
    + unfold C.stopTimer at 1. by rewrite C_stopTimer_cleared.
    + apply C_stopTimer_cleared.
    + intros h Hh. unfold C.stopTimer. rewrite Hh. simpl.
      apply isLive_clearInterval.
    + intros Hn. unfold C.stopTimer. by rewrite Hn.
    + destruct w as [po ns s [cv cs tx ce pi bb cc ar] [st es ti] t i b sd p m c tk e].
      unfold C.onDestroy; simpl.
      destruct pi as [hp|], ti as [ht|]; simpl; try done.
      * by rewrite (clearInterval_comm hp ht (Host.clearInterval hp t)),
                   !clearInterval_idem.
      * by rewrite clearInterval_idem.
      * by rewrite clearInterval_idem.
    + destruct w as [po ns s [cv cs tx ce pi bb cc ar] [st es ti] t i b sd p m c tk e].
      unfold C.onDestroy; simpl. intros h [->| ->]; simpl.
      * destruct ti; simpl; [apply isLive_clearInterval_mono|];
          apply isLive_clearInterval.
      * destruct pi; simpl; apply isLive_clearInterval.
Qed.

(** ** Restarting *)

Lemma isLive_lt h t :
  Host.wf t = true → Host.isLive h t = true → (h < Host.nextId t)%positive.
Proof.
  unfold Host.wf, Host.isLive. rewrite !bool_decide_eq_true.
  intros Hwf [x Hx]. exact (Hwf _ _ Hx).
Qed.

Lemma R_startTimer_fresh now w :
  R.issued w = true →
  R.elapsedSeconds (R.vars (R.startTimer now w)) = 0%Z
  ∧ R.phaseStartTime (R.vars (R.startTimer now w)) = now
  ∧ ∃ h', R.timerInterval (R.vars (R.startTimer now w)) = Some h'
      ∧ Host.runs h' Host.ElapsedCb (R.timers (R.startTimer now w)) = true
      ∧ Host.isLive h' (R.timers w) = false
      ∧ ∀ h, R.timerInterval (R.vars w) = Some h →
             Host.isLive h (R.timers (R.startTimer now w)) = false.
Proof.
  unfold R.issued. rewrite andb_true_iff. intros [Hwf Hti].
  destruct w as [n ns rc [ir ca pa ct ft ph em pst es ti] t p m c e].
  simpl in *. unfold R.startTimer; simpl.
  split; [|split]; [by destruct ti..|].
  destruct ti as [h0|]; simpl.
  - apply bool_decide_eq_true in Hti.
    exists (Host.nextId t). repeat split.
    + apply (runs_setInterval Host.ElapsedCb (Host.clearInterval h0 t)).
    + by apply (fresh_setInterval Host.ElapsedCb t).
    + intros h [= <-].
      transitivity (Host.isLive h0 (Host.clearInterval h0 t));
        [|apply isLive_clearInterval].
      apply (isLive_setInterval_other h0 Host.ElapsedCb (Host.clearInterval h0 t)).
      simpl; lia.
  - exists (Host.nextId t). repeat split.
    + apply (runs_setInterval Host.ElapsedCb t).
    + by apply (fresh_setInterval Host.ElapsedCb t).
    + discriminate.
Qed.

Lemma C_startPolling_startTimer_fresh now w :
  C.issued w = true →
  C.elapsedSeconds (C.timing (C.startPolling (C.startTimer now w))) = 0%Z
  ∧ C.conversionStartTime (C.timing (C.startPolling (C.startTimer now w))) = now
  ∧ ∃ ht hp,
      C.timerInterval (C.timing (C.startPolling (C.startTimer now w))) = Some ht
      ∧ C.pollingInterval (C.exec (C.startPolling (C.startTimer now w))) = Some hp
      ∧ ht ≠ hp
      ∧ Host.isLive ht (C.timers w) = false
      ∧ Host.isLive hp (C.timers w) = false
      ∧ Host.runs ht Host.ElapsedCb (C.timers (C.startPolling (C.startTimer now w))) = true
      ∧ Host.runs hp Host.PollCb (C.timers (C.startPolling (C.startTimer now w))) = true
      ∧ ∀ h, C.timerInterval (C.timing w) = Some h →
             Host.isLive h (C.timers (C.startPolling (C.startTimer now w))) = false.
Proof.
  unfold C.issued. rewrite !andb_true_iff. intros [[Hwf _] Hti].
  destruct w as [po ns s [cv cs tx ce pi bb cc ar] [st es ti] t i b sd p m c tk e].
  simpl in *. unfold C.startPolling, C.startTimer; simpl.
  assert (Hfresh : ∀ h, (Host.nextId t ≤ h)%positive → Host.isLive h t = false).
  { intros h Hle. destruct (Host.isLive h t) eqn:E; [|done].
    apply isLive_lt in E; [lia|done]. }
  split; [|split]; [by destruct ti..|].
  exists (Host.nextId t), (Pos.succ (Host.nextId t)).
  assert (Host.nextId t ≠ Pos.succ (Host.nextId t)) as Hne by lia.
  destruct ti as [h0|]; simpl; (repeat split; [done|apply Hfresh; lia..| | |]).
  - unfold Host.runs; simpl. apply bool_decide_eq_true.
    rewrite lookup_insert_ne by lia. apply lookup_insert_eq.
  - unfold Host.runs; simpl. apply bool_decide_eq_true. apply lookup_insert_eq.
  - apply bool_decide_eq_true in Hti. intros h [= <-].
    unfold Host.isLive; simpl. apply bool_decide_eq_false.
    rewrite !lookup_insert_ne by lia. rewrite lookup_delete_eq.
    intros [x Hx]; discriminate.
  - unfold Host.runs; simpl. apply bool_decide_eq_true.
    rewrite lookup_insert_ne by lia. apply lookup_insert_eq.
  - unfold Host.runs; simpl. apply bool_decide_eq_true. apply lookup_insert_eq.
  - discriminate.
Qed.

(** C7: restarting after a failure.  "Try Again" in the register step runs
    [startFlow] again; when its commitment is accepted, [startTimer] sets the
    elapsed counter to 0, clears the timer the step held and starts a new one
    whose id was not live before.  [retryConversion] clears the poll interval
    and the elapsed timer of the previous attempt; when the next conversion is
    submitted, polling begins with the elapsed counter at 0 and two new
    timers. *)
Theorem C7_restart_is_fresh :
  (∀ (w : R.World) a txid namereservation n0 now,
      R.issued w = true → R.mounted w = true → R.pending w = None →
      Js.truthyStr (R.errorMsg (R.vars w)) = true →
      ∃ w',
        R.run w [R.ClickTryAgain;
                 R.Settled (R.Resolved (R.VString a)) n0;
                 R.Settled (R.Resolved (R.VCommit txid namereservation)) now] = Some w'
        ∧ R.phase (R.vars w') = R.waitingCommit
        ∧ R.elapsedSeconds (R.vars w') = 0%Z
        ∧ R.phaseStartTime (R.vars w') = now
        ∧ ∃ h', R.timerInterval (R.vars w') = Some h'
            ∧ Host.runs h' Host.ElapsedCb (R.timers w') = true
            ∧ Host.isLive h' (R.timers w) = false
            ∧ ∀ h, R.timerInterval (R.vars w) = Some h →
                   Host.isLive h (R.timers w') = false)
  ∧ (∀ w : C.World,
      C.retryVisible w = true →
      ∃ w', C.step w C.ClickRetry = Some w'
        ∧ C.pollingInterval (C.exec w') = None
        ∧ C.timerInterval (C.timing w') = None
        ∧ C.conversionError (C.exec w') = None
        ∧ C.converting (C.exec w') = false
        ∧ C.conversionStarted (C.exec w') = false
        ∧ ∀ h, C.pollingInterval (C.exec w) = Some h ∨ C.timerInterval (C.timing w) = Some h →
               Host.isLive h (C.timers w') = false)
  ∧ (∀ (w : C.World) txid now,
      C.issued w = true → (0 < C.sendPending w)%nat →
      ∃ w', C.step w (C.SendSettled (inr txid) now) = Some w'
        ∧ C.conversionStarted (C.exec w') = true
        ∧ C.elapsedSeconds (C.timing w') = 0%Z
        ∧ C.conversionStartTime (C.timing w') = now
        ∧ ∃ ht hp,
            C.timerInterval (C.timing w') = Some ht
            ∧ C.pollingInterval (C.exec w') = Some hp
            ∧ ht ≠ hp
            ∧ Host.isLive ht (C.timers w) = false
            ∧ Host.isLive hp (C.timers w) = false
            ∧ Host.runs ht Host.ElapsedCb (C.timers w') = true
            ∧ Host.runs hp Host.PollCb (C.timers w') = true
            ∧ ∀ h, C.timerInterval (C.timing w) = Some h →
                   Host.isLive h (C.timers w') = false).
Proof.
  split; [|split].
  - intros w a txid nr n0 now Hi Hm Hp He.
    simpl. rewrite Hm, He, Hp. simpl.
    set (w1 := R.assign (R.setPhase R.waitingCommit) _).
    assert (Hi1 : R.issued w1 = true).
    { destruct w as [n ns rc [ir ca pa ct ft ph em pst es ti] t p m c e]. exact Hi. }
    destruct (R_startTimer_fresh now w1 Hi1) as (Hel & Hst & h' & Hh' & Hruns & Hfresh & Hold).
    eexists. split; [reflexivity|]. simpl.
    assert (Ht : R.timers w1 = R.timers w) by (by destruct w as [n ns rc []]).
    assert (Hv : R.timerInterval (R.vars w1) = R.timerInterval (R.vars w))
      by (by destruct w as [n ns rc []]).
    rewrite Ht in Hfresh. rewrite Hv in Hold.
    repeat split; try done.
    + by destruct w as [n ns rc [ir ca pa ct ft ph em pst es []]].
    + exists h'. done.
  - intros w Hv. simpl. rewrite Hv. eexists. split; [reflexivity|].
    destruct w as [po ns s [cv cs tx ce pi bb cc ar] [st es ti] t i b sd p m c tk e].
    unfold C.retryConversion, C.initialize, C.clearPolling, C.stopTimer; simpl.
    destruct pi as [hp|], ti as [ht|]; simpl; repeat split; try done;
      intros h [[= <-]|[= <-]]; simpl;
      first [ apply isLive_clearInterval
            | apply isLive_clearInterval_mono, isLive_clearInterval ].
  - intros w txid now Hi Hs. simpl.
    rewrite bool_decide_true by done.
    eexists. split; [reflexivity|].
    unfold C.sendSettled.
    set (w1 := C.withExec _ _).
    assert (Hi1 : C.issued w1 = true).
    { destruct w as [po ns s [cv cs tx ce pi bb cc ar] [st es ti] t]. exact Hi. }
    destruct (C_startPolling_startTimer_fresh now w1 Hi1)
      as (Hel & Hst & ht & hp & H1 & H2 & H3 & H4 & H5 & H6 & H7 & H8).
    assert (Ht : C.timers w1 = C.timers w) by (by destruct w).
    assert (Hv : C.timerInterval (C.timing w1) = C.timerInterval (C.timing w))
      by (by destruct w).
    rewrite Ht in H4, H5. rewrite Hv in H8.
    repeat split; try done.
    + by destruct w as [po ns s [cv cs tx ce pi bb cc ar] [st es []]].
    + exists ht, hp. done.
Qed.

Lemma C7_restart_witness :
  R.issued Samples.regFailed = true
  ∧ R.mounted Samples.regFailed = true
  ∧ R.pending Samples.regFailed = None
  ∧ Js.truthyStr (R.errorMsg (R.vars Samples.regFailed)) = true
  ∧ ∃ w', R.run Samples.regFailed
            [R.ClickTryAgain;
             R.Settled (R.Resolved (R.VString "RControl2")) 6;
             R.Settled (R.Resolved (R.VCommit "commit-tx" "reservation")) 7] = Some w'
          ∧ R.elapsedSeconds (R.vars w') = 0%Z.
Proof.
  assert (H := proj1 C7_restart_is_fresh Samples.regFailed
                 "RControl2" "commit-tx" "reservation" 6%Z 7%Z).
  repeat split; [vm_compute; reflexivity..|].
  destruct H as (w' & Hrun & _ & Hel & _); [vm_compute; reflexivity..|].
  exists w'. split; assumption.
Defined.

(** ** A rejected submission *)

(** C3 (as amended): when the submission rejects, the attempt ends in the
    failed state without polling.  The register step shows the text of the
    error as it is ([e.message], or [String(e)] when there is no message), and
    has invoked nothing but the address and the commitment commands, with no
    timer created.  The conversion step shows the same text behind the fixed
    prefix "Failed to start conversion: ", and has invoked nothing but the
    baseline read and the submission: no poll callback has run and no timer
    was created. *)
Theorem C3_submission_rejected :
  (∀ (w : R.World) a e n0 now,
      ∃ w', R.run (R.startFlow w)
              [R.Settled (R.Resolved (R.VString a)) n0;
               R.Settled (R.Rejected e) now] = Some w'
        ∧ R.phase (R.vars w') = R.error
        ∧ R.errorMsg (R.vars w') = Some (Js.messageOrString e)
        ∧ R.emitted w' =
            (R.emitted w ++
               [R.errorEvent (Js.strOr (Js.messageOrString e) "Unknown error")])%list
        ∧ R.pending w' = None
        ∧ R.calls w' =
            (R.calls w ++
               [R.get_new_address;
                R.register_name_commitment (R.name w) a
                  (Js.trim (Js.strOr (R.referralCode w) ""))
                  (if R.isRoot (R.vars w) then ""
                   else Types.name (R.selectedNamespace w))])%list
        ∧ R.timerInterval (R.vars w') = None
        ∧ Host.nextId (R.timers w') = Host.nextId (R.timers w))
  ∧ (∀ s, Js.messageOrString (Js.ThrownString s) = s)
  ∧ (∀ m r, Js.truthyStr (Some m) = true →
            Js.messageOrString (Js.ThrownObject (Some m) r) = m)
  ∧ (∀ (w : C.World) balance e now,
      C.internalCanProceed w = true →
      ∃ w', C.run (C.startConversion w)
              [C.BaselineSettled (inr balance); C.SendSettled (inl e) now] = Some w'
        ∧ C.conversionError (C.exec w') =
            Some ("Failed to start conversion: " ++ Js.messageOrString e)
        ∧ C.converting (C.exec w') = false
        ∧ C.conversionStarted (C.exec w') = false
        ∧ C.conversionCompleted (C.exec w') = C.conversionCompleted (C.exec w)
        ∧ C.pollingInterval (C.exec w') = C.pollingInterval (C.exec w)
        ∧ C.timing w' = C.timing w
        ∧ C.timers w' = C.timers w
        ∧ C.ticks w' = C.ticks w
        ∧ C.emitted w' = C.emitted w
        ∧ C.calls w' =
            (C.calls w ++
               [C.get_address_currency_balance
                  (C.selectedDestinationAddress (C.setup w)) (C.targetCurrency w);
                C.send_currency_conversion
                  (C.selectedSourceAddress (C.setup w))
                  (C.selectedDestinationAddress (C.setup w))
                  (C.sourceCurrency w) (C.targetCurrency w)
                  (C.amountWithBuffer (C.setup w))])%list).
Proof.
  split; [|split; [|split]].
  - intros w a e n0 now. eexists. split; [reflexivity|].
    destruct w as [n ns rc [ir ca pa ct ft ph em pst es ti] t p m c ev].
    unfold R.catch, R.stopTimer; simpl.
    destruct ti; simpl; repeat split; by rewrite <- ?app_assoc.
  - done.
  - intros m r Hm. simpl in *. unfold Js.strOr.
    destruct (decide (m = "")) as [->|]; done.
  - intros w balance e now Hc.
    assert (Hcs : C.conversionStarted (C.exec w) = false).
    { unfold C.internalCanProceed in Hc.
      destruct (C.conversionStarted (C.exec w)); [|done].
      by rewrite andb_false_r in Hc. }
    unfold C.startConversion. rewrite Hc. simpl.
    eexists. split; [reflexivity|].
    destruct w as [po ns s [cv cs tx ce pi bb cc ar] [st es ti] t i b sd p m c tk ev].
    simpl in *. repeat split; try done.
    by rewrite <- app_assoc.
Qed.

Lemma C3_submission_rejected_witness :
  C.internalCanProceed
    (default Samples.convMounted (C.run Samples.convMounted Samples.toSetup)) = true
  ∧ ∃ w', C.run (C.startConversion
                   (default Samples.convMounted (C.run Samples.convMounted Samples.toSetup)))
            [C.BaselineSettled (inr (Qc_of_Z 0)); C.SendSettled (inl Samples.insufficient) 900]
          = Some w'
          ∧ C.conversionError (C.exec w') =
              Some "Failed to start conversion: insufficient funds".
Proof.
  split; [vm_compute; reflexivity|].
  destruct (proj2 (proj2 (proj2 C3_submission_rejected))
              (default Samples.convMounted (C.run Samples.convMounted Samples.toSetup))
              (Qc_of_Z 0) Samples.insufficient 900%Z)
    as (w' & Hrun & Herr & _); [vm_compute; reflexivity|].
  exists w'. split; [exact Hrun|exact Herr].
Defined.

(** C3, the claim as stated fails: in the conversion step the text shown is
    not the raised message. *)
Lemma C3_conversion_message_not_verbatim :
  ∃ w', C.run Samples.convSubmitted [C.SendSettled (inl Samples.insufficient) 900] = Some w'
        ∧ Js.messageOrString Samples.insufficient = "insufficient funds"
        ∧ C.conversionError (C.exec w') =
            Some "Failed to start conversion: insufficient funds"
        ∧ bool_decide (C.conversionError (C.exec w') = Some "insufficient funds") = false.
Proof.
  eexists. split; [vm_compute; reflexivity|].
  repeat split; vm_compute; reflexivity.
Qed.

(** ** Completion *)

Lemma runs_clearInterval_inv h cb h' t :
  Host.runs h cb (Host.clearInterval h' t) = true → Host.runs h cb t = true.
Proof.
  unfold Host.runs, Host.clearInterval; simpl. rewrite !bool_decide_eq_true.
  intros Hx. apply lookup_delete_Some in Hx. tauto.
Qed.

Lemma runs_clearInterval_same h cb t :
  Host.runs h cb (Host.clearInterval h t) = false.
Proof.
  apply not_isLive_runs, isLive_clearInterval.
Qed.

Lemma noPoll_clearInterval cb h t :
  noneRuns cb t → noneRuns cb (Host.clearInterval h t).
Proof.
  intros Hn h'. destruct (Host.runs h' _ (Host.clearInterval h t)) eqn:E; [|done].
  apply runs_clearInterval_inv in E. by rewrite Hn in E.
Qed.


Lemma elapsedHeld_spec w h :
  C.elapsedHeld w = true → Host.runs h Host.ElapsedCb (C.timers w) = true →
  C.timerInterval (C.timing w) = Some h.
Proof.
  unfold C.elapsedHeld, Host.runs. rewrite !bool_decide_eq_true.
  intros Hall Hh. exact (Hall _ _ Hh eq_refl).
Qed.






Lemma completeConversion_emits w q :
  C.emitted (C.completeConversion q w) =
    (C.emitted w ++ [C.completed (default "" (C.conversionTxid (C.exec w))) q])%list.
Proof.
  unfold C.completeConversion, C.stopTimer, C.clearPolling.
  by destruct w as [po ns s [cv cs tx ce [hp|] bb cc ar] [st es [ht|]]].
Qed.





(** ** Teardown *)

Lemma noneRuns_clear_held cb (held : option positive) t :
  (∀ h, Host.runs h cb t = true → held = Some h) →
  noneRuns cb (match held with Some h => Host.clearInterval h t | None => t end).
Proof.
  intros Hh h. destruct held as [h0|].
  - destruct (decide (h = h0)) as [->|Hne]; [apply runs_clearInterval_same|].
    destruct (Host.runs h _ _) eqn:E; [|done].
    apply runs_clearInterval_inv, Hh in E. congruence.
  - destruct (Host.runs h _ _) eqn:E; [|done]. apply Hh in E. congruence.
Qed.













(** Teardown does not reach a submission that is still in flight: when it is
    accepted after the step was destroyed, [startTimer] and [startPolling]
    run all the same, and the new poll interval fires. *)
Lemma teardown_keeps_inflight_submission :
  ∃ w, C.run Samples.convSubmitted
         [C.Destroy; C.SendSettled (inr "txid-1") 1000; C.PollFires 2] = Some w
       ∧ C.mounted w = false
       ∧ C.ticks w = 1%nat
       ∧ Host.runs 2 Host.PollCb (C.timers w) = true.
Proof.
  eexists. split; [vm_compute; reflexivity|].
  repeat split; vm_compute; reflexivity.
Qed.


(** ** One poll loop at a time *)

(** C5, the failing run: "Retry" is clicked while a submission is in flight,
    which resets [converting] and re-opens the guard of [startConversion]; a
    second submission starts, both are accepted, and [startPolling], which
    does not clear [pollingInterval] first, runs twice.  Two poll intervals
    are live; the step holds only the second. *)
Theorem C5_retry_during_submission_leaks_poll :
  ∃ w', C.run Samples.convMounted Samples.raceTrace = Some w'
        ∧ Host.count Host.PollCb (C.timers w') = 2%nat
        ∧ Host.runs 2 Host.PollCb (C.timers w') = true
        ∧ Host.runs 4 Host.PollCb (C.timers w') = true
        ∧ C.pollingInterval (C.exec w') = Some 4%positive
        ∧ C.pollHeld w' = false
        ∧ Host.count Host.ElapsedCb (C.timers w') = 1%nat.
Proof.
  eexists. split; [vm_compute; reflexivity|].
  repeat split; vm_compute; reflexivity.
Qed.

(** ** Timeouts *)

Section TrackerFacts.
Import Tracker.
Local Open Scope Z_scope.

Variable c : Config.
Variable timeout : Z.
Hypothesis interval_pos : 0 < intervalMs c.
Hypothesis timeout_set : timeoutMs c = Some timeout.
Hypothesis timeout_pos : 0 < timeout.

Local Abbreviation lastTick := (Tracker.lastTick c timeout).

Lemma timedOut_iff (m : nat) :
  timedOut c (Z.of_nat m * intervalMs c + intervalMs c) = true ↔ (lastTick ≤ S m)%nat.
Proof.
  unfold timedOut, Tracker.lastTick. rewrite timeout_set, Z.ltb_lt.
  assert (0 ≤ timeout / intervalMs c) by (apply Z.div_pos; lia).
  split; intros Hlt.
  - assert (timeout / intervalMs c < Z.of_nat m + 1).
    { apply Z.div_lt_upper_bound; lia. }
    lia.
  - assert (timeout / intervalMs c < Z.of_nat m + 1) as Hq by lia.
    pose proof (Z.mul_succ_div_gt timeout (intervalMs c) interval_pos) as Hgt.
    nia.
Qed.

Lemma runTicks_waiting (n : nat) :
  (n < lastTick)%nat →
  runTicks c started (replicate n false) =
    {| phase := waiting; elapsedMs := Z.of_nat n * intervalMs c;
       timerActive := true; invocations := n |}.
Proof.
  induction n as [|n IH]; intros Hn; [reflexivity|].
  rewrite replicate_S_end. unfold runTicks in *. rewrite foldl_app. simpl.
  rewrite IH by lia. unfold pollTick; simpl.
  destruct (timedOut c _) eqn:E.
  - apply timedOut_iff in E. lia.
  - f_equal. lia.
Qed.

Lemma runTicks_failed (n : nat) :
  (lastTick ≤ n)%nat →
  runTicks c started (replicate n false) =
    {| phase := failed; elapsedMs := Z.of_nat lastTick * intervalMs c;
       timerActive := false; invocations := lastTick |}.
Proof.
  induction n as [|n IH]; intros Hn; [unfold Tracker.lastTick in Hn; lia|].
  rewrite replicate_S_end. unfold runTicks in *. rewrite foldl_app. simpl.
  destruct (decide (lastTick ≤ n)%nat) as [Hle|Hgt].
  - rewrite IH by done. reflexivity.
  - assert (n < lastTick)%nat as Hlt by lia.
    pose proof (runTicks_waiting n Hlt) as Hw. unfold runTicks in Hw. rewrite Hw.
    unfold pollTick; simpl.
    destruct (timedOut c _) eqn:E.
    + assert (lastTick = S n) as -> by lia. f_equal. lia.
    + assert (timedOut c (Z.of_nat n * intervalMs c + intervalMs c) = true) as E'
        by (apply timedOut_iff; lia).
      congruence.
Qed.

Lemma lastTick_elapsed :
  timeout < Z.of_nat lastTick * intervalMs c ≤ timeout + intervalMs c.
Proof.
  unfold Tracker.lastTick.
  assert (0 ≤ timeout / intervalMs c) by (apply Z.div_pos; lia).
  pose proof (Z.mul_succ_div_gt timeout (intervalMs c) interval_pos).
  pose proof (Z.mul_div_le timeout (intervalMs c) interval_pos).
  rewrite Nat2Z.inj_succ, Z2Nat.id by done. nia.
Qed.

End TrackerFacts.

Lemma pollRounds_keep_polling (h : positive) (answers : list (Js.Thrown + Qc)) :
  ∀ w : C.World,
    Host.runs h Host.PollCb (C.timers w) = true →
    Forall (C.noArrival w) answers →
    ∃ w', C.run w (C.pollRounds h answers) = Some w'
      ∧ C.exec w' = C.exec w ∧ C.timing w' = C.timing w
      ∧ C.timers w' = C.timers w ∧ C.emitted w' = C.emitted w
      ∧ C.pollPending w' = C.pollPending w
      ∧ C.ticks w' = (C.ticks w + length answers)%nat.
Proof.
  induction answers as [|r answers IH]; intros w Hr Hall.
  - exists w. simpl. repeat split; try done; lia.
  - apply Forall_cons_1 in Hall as [Hr0 Hall].
    change (C.pollRounds h (r :: answers))
      with (C.PollFires h :: C.PollSettled r :: C.pollRounds h answers).
    cbn [C.run]. unfold C.step at 1. rewrite Hr.
    unfold C.step at 1.
    replace (bool_decide (0 < C.pollPending (C.pollFires w))%nat) with true
      by (symmetry; apply bool_decide_eq_true; destruct w; simpl; lia).
    set (w1 := C.pollSettled r (C.pollFires w)).
    assert (H1 : C.exec w1 = C.exec w ∧ C.timing w1 = C.timing w
                 ∧ C.timers w1 = C.timers w ∧ C.emitted w1 = C.emitted w
                 ∧ C.pollPending w1 = C.pollPending w
                 ∧ C.ticks w1 = S (C.ticks w)).
    { unfold w1, C.pollSettled.
      destruct r as [e|bal]; [by destruct w|].
      replace (bool_decide _) with false; [by destruct w|].
      symmetry. apply bool_decide_eq_false. simpl in Hr0.
      replace (C.exec (C.withPending _ _ _ _ (C.pollFires w))) with (C.exec w)
        by (by destruct w).
      by apply Qcle_not_lt. }
    destruct H1 as (Hx & Ht & Htm & Hem & Hpp & Htk).
    destruct (IH w1) as (w' & Hrun & Hx' & Ht' & Htm' & Hem' & Hpp' & Htk').
    { by rewrite Htm. }
    { eapply List.Forall_impl; [|exact Hall]. intros r'. unfold C.noArrival. by rewrite Hx. }
    exists w'. split; [exact Hrun|].
    repeat split; try congruence. simpl. lia.
Qed.

Lemma R_step_wait_bounds w t w' cmd :
  R.step w t = Some w' → cmd ∈ R.calls w' →
  cmd ∈ R.calls w ∨ R.waitBounds cmd = None
  ∨ R.waitBounds cmd = Some (R.POLL_INTERVAL_SECS, R.TIMEOUT_SECS).
Proof.
  destruct w as [n ns rc [ir ca pa ct ft ph em pst es ti] tm p m c ev].
  unfold R.step; simpl.
  destruct t as [|r now|h now|].
  - destruct (_ && _); intros [= <-]; simpl.
    rewrite elem_of_app, list_elem_of_singleton. intros [?| ->]; auto.
  - destruct p as [k|]; [|done].
    destruct r as [v|e]; [destruct k, v; try done|];
      unfold R.resume, R.catch, R.stopTimer, R.startTimer; simpl;
      try (destruct b); destruct ti; simpl; intros [= <-]; simpl;
      rewrite ?elem_of_app, ?list_elem_of_singleton; intros Hin;
      try (destruct Hin as [?| ->]); auto.
  - destruct (Host.runs _ _ _); intros [= <-]; auto.
  - destruct m; intros [= <-]. unfold R.cleanup; destruct ti; auto.
Qed.

Lemma runTicks_unbounded (c : Tracker.Config) (n : nat) :
  Tracker.timeoutMs c = None →
  Tracker.runTicks c Tracker.started (replicate n false) =
    {| Tracker.phase := Tracker.waiting;
       Tracker.elapsedMs := (Z.of_nat n * Tracker.intervalMs c)%Z;
       Tracker.timerActive := true; Tracker.invocations := n |}.
Proof.
  intros Hnone. induction n as [|n IH]; [reflexivity|].
  rewrite replicate_S_end. unfold Tracker.runTicks in *. rewrite foldl_app. simpl.
  rewrite IH. unfold Tracker.pollTick, Tracker.timedOut; simpl. rewrite Hnone.
  f_equal. lia.
Qed.

(** C4: a wait with a positive period and a positive timeout whose readiness
    predicate never answers true fails at the first tick after the timeout,
    that is within one period after it, and the predicate is not invoked
    again.  The register step passes a period of 10 s and a timeout of 1800 s
    to every waiting command and fails with the matching message when the
    command reports a failed wait; a wait without timeout keeps polling, and
    so does the conversion step, whose poll loop has no timeout. *)
Theorem C4_bounded_wait_times_out :
  (∀ (c : Tracker.Config) (timeout : Z) (n : nat),
      (0 < Tracker.intervalMs c)%Z → Tracker.timeoutMs c = Some timeout →
      (0 < timeout)%Z →
      ((n < Tracker.lastTick c timeout)%nat →
         Tracker.phase (Tracker.runTicks c Tracker.started (replicate n false))
           = Tracker.waiting
         ∧ Tracker.invocations (Tracker.runTicks c Tracker.started (replicate n false)) = n)
      ∧ ((Tracker.lastTick c timeout ≤ n)%nat →
         Tracker.phase (Tracker.runTicks c Tracker.started (replicate n false))
           = Tracker.failed
         ∧ Tracker.timerActive (Tracker.runTicks c Tracker.started (replicate n false))
           = false
         ∧ Tracker.answer (Tracker.runTicks c Tracker.started (replicate n false))
           = false
         ∧ Tracker.invocations (Tracker.runTicks c Tracker.started (replicate n false))
           = Tracker.lastTick c timeout
         ∧ (timeout
            < Tracker.elapsedMs (Tracker.runTicks c Tracker.started (replicate n false))
            ≤ timeout + Tracker.intervalMs c)%Z))
  ∧ (∀ (c : Tracker.Config) (n : nat),
      Tracker.timeoutMs c = None →
      Tracker.phase (Tracker.runTicks c Tracker.started (replicate n false))
        = Tracker.waiting
      ∧ Tracker.invocations (Tracker.runTicks c Tracker.started (replicate n false)) = n)
  ∧ (∀ (w : R.World) t w' cmd,
      R.step w t = Some w' → cmd ∈ R.calls w' →
      cmd ∈ R.calls w ∨ R.waitBounds cmd = None ∨ R.waitBounds cmd = Some (10, 1800)%Z)
  ∧ (∀ (w : R.World) (s : Tracker.State) now,
      Tracker.phase s = Tracker.failed →
      ∀ k msg,
        (∃ namereservation, k = R.AwaitCommitBlock namereservation
                            ∧ msg = "Commit transaction not confirmed in time.")
        ∨ (k = R.AwaitFinalizeBlock ∧ msg = "Finalize transaction not confirmed in time.")
        ∨ (k = R.AwaitIdentityReady
           ∧ msg = "Identity not available after registration - this may indicate a network issue.") →
        R.pending w = Some k →
        ∃ w', R.step w (R.Settled (R.Resolved (R.VBool (Tracker.answer s))) now) = Some w'
          ∧ R.phase (R.vars w') = R.error
          ∧ R.errorMsg (R.vars w') = Some msg
          ∧ R.pending w' = None
          ∧ R.timerInterval (R.vars w') = None
          ∧ R.calls w' = R.calls w)
  ∧ (∀ (w : C.World) h answers,
      Host.runs h Host.PollCb (C.timers w) = true →
      Forall (C.noArrival w) answers →
      ∃ w', C.run w (C.pollRounds h answers) = Some w'
        ∧ C.exec w' = C.exec w
        ∧ C.timers w' = C.timers w
        ∧ C.ticks w' = (C.ticks w + length answers)%nat).
Proof.
  split; [|split; [|split; [|split]]].
  - intros c timeout n Hi Ht Hp. split; intros Hn.
    + by rewrite (runTicks_waiting c timeout Hi Ht Hp n Hn).
    + rewrite (runTicks_failed c timeout Hi Ht Hp n Hn). simpl.
      repeat split; try done; apply (lastTick_elapsed c timeout Hi Hp).
  - intros c n Hnone. by rewrite (runTicks_unbounded c n Hnone).
  - apply R_step_wait_bounds.
  - intros w s now Hf k msg Hk Hp.
    unfold Tracker.answer. rewrite Hf.
    unfold R.step. rewrite Hp.
    destruct w as [n ns rc [ir ca pa ct ft ph em pst es ti] tm p m c ev].
    destruct Hk as [(nr & -> & ->)|[[-> ->]|[-> ->]]];
      (eexists; split; [reflexivity|]);
      unfold R.catch, R.stopTimer; simpl; destruct ti; simpl; done.
  - intros w h answers Hr Hall.
    destruct (pollRounds_keep_polling h answers w Hr Hall)
      as (w' & Hrun & Hx & _ & Htm & _ & _ & Htk).
    by exists w'.
Qed.

Lemma C4_bounded_wait_witness :
  (0 < 10000)%Z ∧ (0 < 1800000)%Z ∧ (Tracker.lastTick
                      {| Tracker.intervalMs := 10000; Tracker.timeoutMs := Some 1800000%Z |}
                      1800000 ≤ 200)%nat
  ∧ Tracker.phase
      (Tracker.runTicks
         {| Tracker.intervalMs := 10000; Tracker.timeoutMs := Some 1800000%Z |}
         Tracker.started (replicate 200 false)) = Tracker.failed
  ∧ Tracker.invocations
      (Tracker.runTicks
         {| Tracker.intervalMs := 10000; Tracker.timeoutMs := Some 1800000%Z |}
         Tracker.started (replicate 200 false)) = 181%nat.
Proof.
  assert (H := proj2 (proj1 C4_bounded_wait_times_out
                 {| Tracker.intervalMs := 10000; Tracker.timeoutMs := Some 1800000%Z |}
                 1800000%Z 200%nat ltac:(simpl; lia) eq_refl ltac:(lia))).
  assert (Hk : (Tracker.lastTick
                  {| Tracker.intervalMs := 10000; Tracker.timeoutMs := Some 1800000%Z |}
                  1800000 ≤ 200)%nat) by (vm_compute; lia).
  destruct (H Hk) as (Hph & _ & _ & Hinv & _).
  split; [lia|]. split; [lia|]. split; [exact Hk|]. split; [exact Hph|].
  rewrite Hinv. reflexivity.
Defined.

(** ** The name filter *)

Lemma occurrences_app c s1 s2 :
  I.occurrences c (s1 ++ s2) = (I.occurrences c s1 + I.occurrences c s2)%nat.
Proof.
  induction s1 as [|d s1 IH]; simpl; [done|]. rewrite IH. lia.
Qed.

Lemma removeBlocked_clean c inputValue :
  I.isBlocked c = true → I.occurrences c (I.removeBlocked inputValue) = 0%nat.
Proof.
  intros Hc. induction inputValue as [|d rest IH]; simpl; [done|].
  destruct (I.isBlocked d) eqn:Hd; [done|]. simpl.
  rewrite IH. rewrite bool_decide_false; [done|]. congruence.
Qed.

(** C8: whatever the input field holds, the name [handleNameInput] stores (and
    writes back to the field) contains none of the blocked characters.  The
    preview built from a non-empty name is [name@] for a root namespace and
    [name.namespace@] otherwise: the name adds no at sign and no full stop, so
    the preview has exactly one at sign as long as the namespace's own name
    has none. *)
Theorem C8_name_filter (inputValue : string) (s : I.State) :
  (∀ c, c ∈ I.blockedChars →
        I.occurrences c (I.name (I.handleNameInput inputValue s)) = 0%nat)
  ∧ I.fieldValue (I.handleNameInput inputValue s)
    = I.name (I.handleNameInput inputValue s)
  ∧ ∀ namespace,
      I.selectedNamespace s = Some namespace →
      I.removeBlocked inputValue ≠ "" →
      (I.isRootNamespace s namespace = true →
         I.previewId (I.handleNameInput inputValue s) = I.removeBlocked inputValue ++ "@"
         ∧ I.occurrences "@" (I.previewId (I.handleNameInput inputValue s)) = 1%nat
         ∧ I.occurrences "." (I.previewId (I.handleNameInput inputValue s)) = 0%nat)
      ∧ (I.isRootNamespace s namespace = false →
         I.previewId (I.handleNameInput inputValue s)
           = I.removeBlocked inputValue ++ "." ++ Types.name namespace ++ "@"
         ∧ I.occurrences "@" (I.previewId (I.handleNameInput inputValue s))
           = S (I.occurrences "@" (Types.name namespace))
         ∧ I.occurrences "." (I.previewId (I.handleNameInput inputValue s))
           = S (I.occurrences "." (Types.name namespace))
         ∧ (I.occurrences "@" (Types.name namespace) = 0%nat →
            I.occurrences "@" (I.previewId (I.handleNameInput inputValue s)) = 1%nat)).
Proof.
  split; [|split].
  - intros c Hc. simpl. apply removeBlocked_clean.
    unfold I.isBlocked. by apply bool_decide_eq_true.
  - unfold I.handleNameInput; simpl. by case_bool_decide.
  - intros namespace Hns Hne.
    assert (Hat : I.occurrences "@" (I.removeBlocked inputValue) = 0%nat)
      by (by apply removeBlocked_clean).
    assert (Hdot : I.occurrences "." (I.removeBlocked inputValue) = 0%nat)
      by (by apply removeBlocked_clean).
    assert (Hroot : I.isRootNamespace (I.handleNameInput inputValue s) namespace
                    = I.isRootNamespace s namespace) by reflexivity.
    unfold I.previewId.
    change (I.selectedNamespace (I.handleNameInput inputValue s))
      with (I.selectedNamespace s).
    change (I.name (I.handleNameInput inputValue s)) with (I.removeBlocked inputValue).
    rewrite Hns, Hroot, bool_decide_false by done.
    split; intros ->.
    + rewrite !occurrences_app, Hat, Hdot. done.
    + rewrite !occurrences_app, Hat, Hdot. simpl.
      repeat split; lia.
Qed.

Lemma C8_name_filter_witness :
  I.occurrences "@" (I.previewId (I.handleNameInput "al.ice@" Samples.nameStep)) = 1%nat.
Proof.
  destruct (proj2 (proj2 (C8_name_filter "al.ice@" Samples.nameStep))
              Samples.bitcoins eq_refl) as [_ Hsub]; [vm_compute; congruence|].
  destruct (Hsub eq_refl) as (_ & _ & _ & Hone). apply Hone. reflexivity.
Defined.

(** ** The auto-funding guard *)

(** C9: [handleAutoFunding] calls the funding command exactly when the checked
    balance is at least 0.0002 (0.0001 for the UTXO plus the fee estimate of
    0.0001), the private address is not empty and no funding is in flight;
    otherwise it returns at once with nothing invoked and nothing changed. *)
Theorem C9_auto_funding_guard (w : F.World) :
  F.UTXO_AMOUNT = Q2Qc (1 # 10000)
  ∧ F.estimatedFees = Q2Qc (1 # 10000)
  ∧ F.totalRequired = Q2Qc (2 # 10000)
  ∧ (F.canAffordFunding w = true ↔
       ∃ balance, F.walletBalance w = Some balance ∧ (Q2Qc (2 # 10000) ≤ balance)%Qc)
  ∧ (F.canAffordFunding w = true → F.privateAddress w ≠ "" → F.isFunding w = false →
       F.calls (F.handleAutoFunding w)
         = (F.calls w ++ [F.fund_private_address_for_messages_cmd
                            (F.privateAddress w) (F.currencySymbol w)])%list
       ∧ F.isFunding (F.handleAutoFunding w) = true
       ∧ F.fundingError (F.handleAutoFunding w) = None)
  ∧ (F.canAffordFunding w = false ∨ F.privateAddress w = "" ∨ F.isFunding w = true →
       F.handleAutoFunding w = w)
  ∧ (F.calls (F.handleAutoFunding w) ≠ F.calls w →
       F.canAffordFunding w = true ∧ F.privateAddress w ≠ "" ∧ F.isFunding w = false).
Proof.
  assert (Htot : F.totalRequired = Q2Qc (2 # 10000)) by (by apply Qc_is_canon).
  split; [done|]. split; [done|]. split; [exact Htot|].
  split; [|split; [|split]].
  - unfold F.canAffordFunding. rewrite Htot.
    destruct (F.walletBalance w) as [b|]; split.
    + intros Hb. apply bool_decide_eq_true in Hb. by exists b.
    + intros (b' & [= <-] & Hb). by apply bool_decide_eq_true.
    + done.
    + intros (b' & [=] & _).
  - intros Hc Ha Hf. unfold F.handleAutoFunding.
    rewrite Hc, Hf, bool_decide_false by done. done.
  - intros Hor. unfold F.handleAutoFunding.
    destruct Hor as [-> |[-> | ->]]; simpl;
      rewrite ?bool_decide_true by done; rewrite ?orb_true_r; done.
  - unfold F.handleAutoFunding.
    destruct (F.canAffordFunding w), (F.isFunding w); simpl;
      rewrite ?orb_true_r; try done.
    case_bool_decide; simpl; done.
Qed.

Lemma C9_auto_funding_witness :
  F.calls (F.handleAutoFunding Samples.fundable)
  = [F.fund_private_address_for_messages_cmd "zs1private" "VRSC"].
Proof.
  destruct (C9_auto_funding_guard Samples.fundable)
    as (_ & _ & _ & _ & Hcall & _).
  destruct Hcall as (Hc & _); [vm_compute; congruence..|exact Hc].
Defined.

(** ** Referral prices *)








(** C10, the claim as stated fails on doubles: [calculateDiscountedPrice 1 1]
    is 0.66666666666666674 while [1 * (1 + 1) / (1 + 2)] is
    0.66666666666666663; with 1e17 referral levels the price 100 is not
    lowered at all; and the smallest positive price is turned into 0. *)
Lemma C10_doubles_round :
  I.calculateDiscountedPrice 1 1 = 0x1.5555555555556p-1%float
  ∧ (1 * (1 + 1) / (1 + 2))%float = 0x1.5555555555555p-1%float
  ∧ (I.calculateDiscountedPrice 1 1 =? 1 * (1 + 1) / (1 + 2))%float = false
  ∧ I.calculateDiscountedPrice 100 1e17 = 100%float
  ∧ (I.calculateDiscountedPrice 100 1e17 <? 100)%float = false
  ∧ (0 <? 0x1p-1074)%float = true
  ∧ I.calculateDiscountedPrice 0x1p-1074 0 = 0%float
  ∧ (0 <? I.calculateDiscountedPrice 0x1p-1074 0)%float = false.
Proof. repeat split; vm_compute; reflexivity. Qed.

(** * Further properties of the register step *)

Lemma R_timerHeld_spec w h :
  R.timerHeld w = true → Host.isLive h (R.timers w) = true →
  R.timerInterval (R.vars w) = Some h.
Proof.
  unfold R.timerHeld, Host.isLive. rewrite !bool_decide_eq_true.
  intros Hall [cb Hh]. exact (Hall _ _ Hh).
Qed.

Lemma held_clear (held : option positive) (t : gmap positive Host.Callback) h0 :
  map_Forall (λ h _, held = Some h) t →
  map_Forall (λ h _, held = Some h) (delete h0 t).
Proof. intros Hall. by apply map_Forall_delete. Qed.

Lemma held_clear_own (t : gmap positive Host.Callback) h0 (held' : option positive) :
  map_Forall (λ h _, Some h0 = Some h) t →
  map_Forall (λ h _, held' = Some h) (delete h0 t).
Proof.
  intros Hall h cb Hh. apply lookup_delete_Some in Hh as [Hne Hh].
  specialize (Hall _ _ Hh). simpl in Hall. congruence.
Qed.

Lemma held_none_empty (t : gmap positive Host.Callback) (held' : option positive) :
  map_Forall (λ h _, @None positive = Some h) t →
  map_Forall (λ h _, held' = Some h) t.
Proof. intros Hall h cb Hh. specialize (Hall _ _ Hh). done. Qed.

Lemma R_timerHeld_ext w w' :
  R.timers w' = R.timers w →
  R.timerInterval (R.vars w') = R.timerInterval (R.vars w) →
  R.timerHeld w' = R.timerHeld w.
Proof. unfold R.timerHeld. by intros -> ->. Qed.

Lemma R_timerHeld_stopTimer w :
  R.timerHeld w = true → R.timerHeld (R.stopTimer w) = true.
Proof.
  unfold R.timerHeld. rewrite !bool_decide_eq_true.
  destruct w as [n ns rc [ir ca pa ct ft ph em pst es ti] tm p m c ev].
  unfold R.stopTimer; simpl. destruct ti as [h0|]; simpl; [|done].
  apply held_clear_own.
Qed.

Lemma R_timerHeld_startTimer now w :
  R.timerHeld w = true → R.timerHeld (R.startTimer now w) = true.
Proof.
  unfold R.timerHeld. rewrite !bool_decide_eq_true.
  destruct w as [n ns rc [ir ca pa ct ft ph em pst es ti] tm p m c ev].
  unfold R.startTimer; simpl. intros Hall.
  assert (Hgone : map_Forall (λ h _, Some (Host.nextId tm) = Some h)
                    (match ti with
                     | Some h0 => delete h0 (Host.live tm)
                     | None => Host.live tm
                     end)).
  { destruct ti as [h0|]; [by apply held_clear_own|by apply held_none_empty]. }
  destruct ti as [h0|]; simpl; by apply map_Forall_insert_2.
Qed.

Lemma R_step_timerHeld w t w' :
  R.timerHeld w = true → R.step w t = Some w' → R.timerHeld w' = true.
Proof.
  intros Hh. destruct t as [|r now|h now|]; simpl.
  - destruct (_ && _); intros [= <-]. revert Hh. by destruct w as [n ns rc []].
  - destruct (R.pending w) as [k|]; [|done].
    assert (Hcatch : ∀ e w0, R.timerHeld w0 = true → R.timerHeld (R.catch e w0) = true).
    { intros e w0 H0. apply R_timerHeld_stopTimer in H0. revert H0.
      unfold R.catch. by destruct (R.stopTimer w0) as [n ns rc []]. }
    destruct r as [v|e]; simpl; [|intros [= <-]; by apply Hcatch].
    destruct k, v; simpl; try done.
    + intros [= <-]. revert Hh. by destruct w as [n ns rc []].
    + intros [= <-].
      rewrite <- (R_timerHeld_startTimer now
        (R.assign (R.setPhase R.waitingCommit) (R.assign (R.setCommitTxid txid) w))).
      * apply R_timerHeld_ext; done.
      * revert Hh. by destruct w as [n ns rc []].
    + pose proof (R_timerHeld_stopTimer _ Hh) as Hs.
      destruct b; simpl; intros [= <-].
      * revert Hs. by destruct (R.stopTimer w) as [n ns rc []].
      * apply Hcatch. exact Hs.
    + intros [= <-]. revert Hh. by destruct w as [n ns rc []].
    + intros [= <-].
      rewrite <- (R_timerHeld_startTimer now
        (R.assign (R.setPhase R.waitingFinalize) (R.assign (R.setFinalizeTxid s) w))).
      * apply R_timerHeld_ext; done.
      * revert Hh. by destruct w as [n ns rc []].
    + pose proof (R_timerHeld_stopTimer _ Hh) as Hs.
      destruct b; simpl; intros [= <-].
      * revert Hs. by destruct (R.stopTimer w) as [n ns rc []].
      * apply Hcatch. exact Hs.
    + destruct b; simpl; intros [= <-].
      * revert Hh. by destruct w as [n ns rc []].
      * by apply Hcatch.
  - destruct (Host.runs _ _ _); intros [= <-]. revert Hh.
    by destruct w as [n ns rc []].
  - destruct (R.mounted w); intros [= <-]. revert Hh.
    unfold R.timerHeld, R.cleanup. rewrite !bool_decide_eq_true.
    destruct w as [n ns rc [ir ca pa ct ft ph em pst es [h|]] t p m c e]; simpl; [|done].
    apply held_clear.
Qed.

Lemma R_run_timerHeld ts : ∀ w w',
  R.timerHeld w = true → R.run w ts = Some w' → R.timerHeld w' = true.
Proof.
  induction ts as [|t ts IH]; simpl; intros w w' Hi.
  - by intros [= <-].
  - destruct (R.step w t) as [w1|] eqn:E; [|done].
    apply IH. by eapply R_step_timerHeld.
Qed.

(** X1: the register step never has two intervals running.  Whatever turns
    happen after the step is mounted, any two live interval ids are the same
    id, the one the step holds in [timerInterval]. *)
Theorem X1_register_single_timer name namespace referralCode ts w h1 h2 :
  R.run (R.onMount (R.created name namespace referralCode Host.noTimers)) ts = Some w →
  Host.isLive h1 (R.timers w) = true → Host.isLive h2 (R.timers w) = true →
  h1 = h2 ∧ R.timerInterval (R.vars w) = Some h1.
Proof.
  intros Hrun H1 H2.
  assert (Hh : R.timerHeld w = true).
  { eapply R_run_timerHeld; [|exact Hrun]. vm_compute. reflexivity. }
  pose proof (R_timerHeld_spec _ _ Hh H1) as E1.
  pose proof (R_timerHeld_spec _ _ Hh H2) as E2.
  split; [congruence|done].
Qed.

Lemma X1_register_single_timer_witness :
  ∃ w, R.run Samples.regMounted Samples.regToWaiting = Some w
       ∧ Host.isLive 1 (R.timers w) = true
       ∧ R.timerInterval (R.vars w) = Some 1%positive.
Proof.
  eexists. split; [vm_compute; reflexivity|]. split; [vm_compute; reflexivity|].
  refine (proj2 (X1_register_single_timer "alice" Samples.vrsc "" Samples.regToWaiting
                   _ 1%positive 1%positive _ _ _)); vm_compute; reflexivity.
Defined.

Lemma R_step_coherent w t w' :
  R.coherent w → R.step w t = Some w' → R.coherent w'.
Proof.
  destruct w as [n ns rc [ir ca pa ct ft ph em pst es ti] tm p m c ev].
  unfold R.coherent, R.step; simpl.
  destruct t as [|r now|h now|].
  - destruct (m && _ && _) eqn:E; [|done]. intros Hc [= <-]; simpl.
    apply andb_true_iff in E as [_ E]. apply bool_decide_eq_true in E. subst p.
    destruct Hc as [-> _]. done.
  - destruct p as [k|]; [|done].
    destruct r as [v|e].
    + destruct k, v; try done; simpl;
        unfold R.catch, R.stopTimer, R.startTimer; simpl;
        try (destruct b); destruct ti; simpl;
        intros Hc [= <-]; simpl; intuition (eauto; congruence).
    + unfold R.resume, R.catch, R.stopTimer; simpl.
      destruct ti; simpl; intros Hc [= <-]; simpl; eauto.
  - destruct (Host.runs _ _ _); [|done]. by intros Hc [= <-].
  - destruct m; [|done]. intros Hc [= <-]. unfold R.cleanup; simpl.
    destruct ti; simpl; done.
Qed.

Lemma R_run_coherent ts : ∀ w w',
  R.coherent w → R.run w ts = Some w' → R.coherent w'.
Proof.
  induction ts as [|t ts IH]; simpl; intros w w' Hi.
  - by intros [= <-].
  - destruct (R.step w t) as [w1|] eqn:E; [|done].
    apply IH. by eapply R_step_coherent.
Qed.

Lemma R_onMount_coherent name namespace referralCode tm :
  R.coherent (R.onMount (R.created name namespace referralCode tm)).
Proof. unfold R.coherent; simpl. done. Qed.

(** X2: when the register step shows an error or success, nothing is left
    running.  In every state reached after mounting, the flow is suspended at
    an [await] exactly when the phase is neither [done] nor [error]; an error
    message is set only when the flow has ended in the [error] phase (so "Try
    Again" can never start a second flow beside a running one); and once the
    flow has ended the step holds no timer and no interval is live. *)
Theorem X2_register_terminal_is_quiet name namespace referralCode ts w :
  R.run (R.onMount (R.created name namespace referralCode Host.noTimers)) ts = Some w →
  (R.pending w = None ↔
     R.phase (R.vars w) = R.done ∨ R.phase (R.vars w) = R.error)
  ∧ (is_Some (R.errorMsg (R.vars w)) →
       R.pending w = None ∧ R.phase (R.vars w) = R.error)
  ∧ (R.pending w = None →
       R.timerInterval (R.vars w) = None ∧ ∀ h, Host.isLive h (R.timers w) = false).
Proof.
  intros Hrun.
  pose proof (R_run_coherent _ _ _ (R_onMount_coherent _ _ _ _) Hrun) as Hc.
  assert (Hh : R.timerHeld w = true).
  { eapply R_run_timerHeld; [|exact Hrun]. vm_compute. reflexivity. }
  unfold R.coherent in Hc.
  split; [|split].
  - destruct (R.pending w) as [k|].
    + split; [done|].
      intros [H|H]; destruct k; destruct Hc as [Hp ?]; rewrite Hp in H; done.
    + split; [|done]. intros _. destruct Hc as [_ [[? _]|[? _]]]; auto.
  - intros [msg Hmsg].
    destruct (R.pending w) as [[]|]; rewrite Hmsg in Hc;
      try (destruct Hc as (_ & ? & _); done); try (destruct Hc as (_ & ?); done).
    destruct Hc as [_ [[? _]|[_ ?]]]; done.
  - intros Hp. rewrite Hp in Hc. destruct Hc as [Hti _]. split; [done|].
    intros h. destruct (Host.isLive h (R.timers w)) eqn:E; [|done].
    apply (R_timerHeld_spec _ _ Hh) in E. congruence.
Qed.

Lemma X2_register_terminal_witness :
  R.run Samples.regMounted Samples.regRejected = Some Samples.regFailed
  ∧ R.pending Samples.regFailed = None
  ∧ R.timerInterval (R.vars Samples.regFailed) = None.
Proof.
  split; [vm_compute; reflexivity|]. split; [vm_compute; reflexivity|].
  refine (proj1 (proj2 (proj2 (X2_register_terminal_is_quiet
            "alice" Samples.vrsc "" Samples.regRejected Samples.regFailed _)) _));
    vm_compute; reflexivity.
Defined.

(** X3: the progress bar of the register step never goes backwards while the
    flow is alive: every turn that does not end in the [error] phase leaves
    [getProgressPercentage] at least where it was; it shows 100 exactly in the
    [done] phase and drops to 0 on an error. *)
Theorem X3_register_progress_monotone name namespace referralCode ts w t w' :
  R.run (R.onMount (R.created name namespace referralCode Host.noTimers)) ts = Some w →
  R.step w t = Some w' →
  (R.phase (R.vars w') ≠ R.error →
     (R.getProgressPercentage w ≤ R.getProgressPercentage w')%Z)
  ∧ (R.getProgressPercentage w' = 100%Z ↔ R.phase (R.vars w') = R.done)
  ∧ (R.phase (R.vars w') = R.error → R.getProgressPercentage w' = 0%Z).
Proof.
  intros Hrun Hstep.
  pose proof (R_run_coherent _ _ _ (R_onMount_coherent _ _ _ _) Hrun) as Hc.
  split; [|split].
  - revert Hc Hstep.
    destruct w as [n ns rc [ir ca pa ct ft ph em pst es ti] tm p m c ev].
    unfold R.coherent, R.step, R.getProgressPercentage; simpl.
    destruct t as [|r now|h now|].
    + destruct (m && _ && _) eqn:E; [|done]. intros Hc [= <-]; simpl.
      apply andb_true_iff in E as [E1 E]. apply bool_decide_eq_true in E. subst p.
      apply andb_true_iff in E1 as [_ Etr].
      destruct Hc as [_ [[-> _]|[_ ->]]]; done.
    + destruct p as [k|]; [|done].
      destruct r as [v|e].
      * destruct k, v; try done; simpl;
          unfold R.catch, R.stopTimer, R.startTimer; simpl;
          try (destruct b); destruct ti; simpl;
          intros Hc [= <-]; simpl; intros Hne; try done;
          destruct Hc as [-> _]; done.
      * unfold R.resume, R.catch, R.stopTimer; simpl.
        destruct ti; simpl; intros Hc [= <-]; simpl; done.
    + destruct (Host.runs _ _ _); [|done]. intros Hc [= <-]; simpl. lia.
    + destruct m; [|done]. intros Hc [= <-]. unfold R.cleanup; simpl.
      destruct ti; simpl; lia.
  - unfold R.getProgressPercentage. destruct (R.phase (R.vars w')); split; done.
  - unfold R.getProgressPercentage. by intros ->.
Qed.

Lemma X3_register_progress_witness :
  ∃ w w', R.run Samples.regMounted Samples.regToCommit = Some w
          ∧ R.step w (R.Settled (R.Resolved (R.VCommit "commit-tx" "reservation")) 1000)
            = Some w'
          ∧ (R.getProgressPercentage w ≤ R.getProgressPercentage w')%Z.
Proof.
  eexists. eexists. split; [vm_compute; reflexivity|]. split; [vm_compute; reflexivity|].
  refine (proj1 (X3_register_progress_monotone "alice" Samples.vrsc "" Samples.regToCommit
                   _ (R.Settled (R.Resolved (R.VCommit "commit-tx" "reservation")) 1000)
                   _ _ _) _); vm_compute; congruence.
Defined.

(** X4: a registration in which every backend call succeeds.  The step calls,
    in this order, the address, commitment, block wait, private address,
    registration, block wait and readiness commands; [register_identity]
    receives the transaction id and the name reservation the commitment
    returned, and the control and private addresses just obtained; the
    identity waited for is [name@] or [name.namespace@]; the
    step ends in [done], reports the two addresses once, and no interval is
    left live. *)
Theorem X4_register_success_run name namespace referralCode
    a txid reservation p ftx t1 t2 t3 t4 t5 t6 t7 :
  ∃ w,
    R.run (R.onMount (R.created name namespace referralCode Host.noTimers))
      [R.Settled (R.Resolved (R.VString a)) t1;
       R.Settled (R.Resolved (R.VCommit txid reservation)) t2;
       R.Settled (R.Resolved (R.VBool true)) t3;
       R.Settled (R.Resolved (R.VString p)) t4;
       R.Settled (R.Resolved (R.VString ftx)) t5;
       R.Settled (R.Resolved (R.VBool true)) t6;
       R.Settled (R.Resolved (R.VBool true)) t7] = Some w
    ∧ R.phase (R.vars w) = R.done
    ∧ R.errorMsg (R.vars w) = None
    ∧ R.emitted w = [R.completed a p]
    ∧ R.calls w =
        [R.get_new_address;
         R.register_name_commitment name a (Js.trim (Js.strOr referralCode ""))
           (if isRootNamespace namespace then "" else Types.name namespace);
         R.wait_for_block_increase 1 10 1800;
         R.get_new_private_address;
         R.register_identity txid reservation
           (if isRootNamespace namespace then name
            else name ++ "." ++ Types.name namespace) a p;
         R.wait_for_block_increase 1 10 1800;
         R.wait_for_identity_ready
           (if isRootNamespace namespace then name ++ "@"
            else name ++ "." ++ Types.name namespace ++ "@") 10 1800]
    ∧ R.timerInterval (R.vars w) = None
    ∧ Host.live (R.timers w) = ∅.
Proof.
  eexists. split; [reflexivity|]. simpl.
  unfold R.fullId, R.identityNameForFinalize; simpl.
  destruct (isRootNamespace namespace); simpl;
    repeat split; done.
Qed.

(** * Further properties of the conversion step *)

Lemma C_elapsedHeld_ext w w' :
  C.timers w' = C.timers w →
  C.timerInterval (C.timing w') = C.timerInterval (C.timing w) →
  C.elapsedHeld w' = C.elapsedHeld w.
Proof. unfold C.elapsedHeld. by intros -> ->. Qed.

Lemma heldCb_clear cb (held : option positive) (t : gmap positive Host.Callback) h0 :
  map_Forall (λ h c, c = cb → held = Some h) t →
  map_Forall (λ h c, c = cb → held = Some h) (delete h0 t).
Proof. intros Hall. by apply map_Forall_delete. Qed.

Lemma heldCb_clear_own cb (t : gmap positive Host.Callback) h0 (held' : option positive) :
  map_Forall (λ h c, c = cb → Some h0 = Some h) t →
  map_Forall (λ h c, c = cb → held' = Some h) (delete h0 t).
Proof.
  intros Hall h c Hh Hc. apply lookup_delete_Some in Hh as [Hne Hh].
  specialize (Hall _ _ Hh Hc). simpl in Hall. congruence.
Qed.

Lemma heldCb_none cb (t : gmap positive Host.Callback) (held' : option positive) :
  map_Forall (λ h c, c = cb → @None positive = Some h) t →
  map_Forall (λ h c, c = cb → held' = Some h) t.
Proof. intros Hall h c Hh Hc. specialize (Hall _ _ Hh Hc). done. Qed.

Lemma C_elapsedHeld_stopTimer w :
  C.elapsedHeld w = true → C.elapsedHeld (C.stopTimer w) = true.
Proof.
  unfold C.elapsedHeld. rewrite !bool_decide_eq_true.
  destruct w as [po ns s x [st es ti] t i b sd p m c tk e].
  unfold C.stopTimer; simpl. destruct ti as [h0|]; simpl; [|done].
  apply heldCb_clear_own.
Qed.

Lemma C_elapsedHeld_clearPolling w :
  C.elapsedHeld w = true → C.elapsedHeld (C.clearPolling w) = true.
Proof.
  unfold C.elapsedHeld. rewrite !bool_decide_eq_true.
  destruct w as [po ns s [cv cs tx ce pi bb cc ar] [st es ti] t i b sd p m c tk e].
  unfold C.clearPolling; simpl. destruct pi as [h0|]; simpl; [|done].
  apply heldCb_clear.
Qed.

Lemma C_elapsedHeld_startTimer now w :
  C.elapsedHeld w = true → C.elapsedHeld (C.startTimer now w) = true.
Proof.
  unfold C.elapsedHeld. rewrite !bool_decide_eq_true.
  destruct w as [po ns s x [st es ti] t i b sd p m c tk e].
  unfold C.startTimer; simpl. intros Hall.
  assert (Hgone : map_Forall (λ h c, c = Host.ElapsedCb → Some (Host.nextId t) = Some h)
                    (match ti with
                     | Some h0 => delete h0 (Host.live t)
                     | None => Host.live t
                     end)).
  { destruct ti as [h0|]; [by apply heldCb_clear_own|by apply heldCb_none]. }
  destruct ti as [h0|]; simpl; by apply map_Forall_insert_2.
Qed.

Lemma C_elapsedHeld_startPolling w :
  C.elapsedHeld w = true → C.elapsedHeld (C.startPolling w) = true.
Proof.
  unfold C.elapsedHeld. rewrite !bool_decide_eq_true.
  destruct w as [po ns s [cv cs tx ce pi bb cc ar] [st es ti] t i b sd p m c tk e].
  unfold C.startPolling; simpl. intros Hall h cb Hh Hc. subst cb.
  destruct (decide (h = Host.nextId t)) as [->|Hne].
  - rewrite lookup_insert_eq in Hh. done.
  - rewrite lookup_insert_ne in Hh by done. by apply (Hall _ _ Hh).
Qed.

Lemma C_step_elapsedHeld w t w' :
  C.elapsedHeld w = true → C.step w t = Some w' → C.elapsedHeld w' = true.
Proof.
  intros Hi. destruct t as [| |est d|r|r now|h|r|h now|]; simpl.
  - destruct (_ && _); intros [= <-]. revert Hi.
    unfold C.startConversion. destruct (negb _); [done|].
    by destruct w as [po ns s [] []].
  - destruct (C.retryVisible w); intros [= <-].
    unfold C.retryConversion.
    set (w1 := C.withExec _ w).
    assert (Hi1 : C.elapsedHeld w1 = true).
    { revert Hi. by destruct w as [po ns s [] []]. }
    apply C_elapsedHeld_clearPolling, C_elapsedHeld_stopTimer in Hi1. revert Hi1.
    by destruct (C.stopTimer (C.clearPolling w1)) as [po ns s [] []].
  - destruct (bool_decide _); intros [= <-]. revert Hi.
    by destruct w as [po ns s [] []].
  - destruct (bool_decide _); intros [= <-]. revert Hi.
    destruct r; by destruct w as [po ns s [] []].
  - destruct (bool_decide _); intros [= <-].
    destruct r as [e|txid]; simpl.
    + revert Hi. by destruct w as [po ns s [] []].
    + apply C_elapsedHeld_startPolling, C_elapsedHeld_startTimer.
      revert Hi. by destruct w as [po ns s [] []].
  - destruct (Host.runs _ _ _); intros [= <-]. revert Hi.
    by destruct w as [po ns s [] []].
  - destruct (bool_decide _); intros [= <-].
    unfold C.pollSettled.
    set (w1 := C.withPending _ _ _ _ w).
    assert (Hi1 : C.elapsedHeld w1 = true).
    { revert Hi. by destruct w as [po ns s [] []]. }
    destruct r as [e|bal]; [done|].
    destruct (bool_decide _); [|done].
    apply C_elapsedHeld_clearPolling, C_elapsedHeld_stopTimer in Hi1.
    unfold C.completeConversion. revert Hi1.
    by destruct (C.stopTimer (C.clearPolling w1)) as [po ns s [] []].
  - destruct (Host.runs _ _ _); intros [= <-]. revert Hi.
    by destruct w as [po ns s [] []].
  - destruct (C.mounted w); intros [= <-]. revert Hi.
    unfold C.elapsedHeld, C.onDestroy. rewrite !bool_decide_eq_true.
    destruct w as [po ns s [cv cs tx ce [hp|] bb cc ar] [st es [ht|]] t i b sd p m c tk e];
      simpl; intros Hall; repeat apply heldCb_clear; done.
Qed.

Lemma C_run_elapsedHeld ts : ∀ w w',
  C.elapsedHeld w = true → C.run w ts = Some w' → C.elapsedHeld w' = true.
Proof.
  induction ts as [|t ts IH]; simpl; intros w w' Hi.
  - by intros [= <-].
  - destruct (C.step w t) as [w1|] eqn:E; [|done].
    apply IH. by eapply C_step_elapsedHeld.
Qed.

(** X5: the conversion step never runs two elapsed-time timers.  Whatever
    turns happen after mounting, overlapping submissions included, any two
    live intervals that run the elapsed-time callback are one and the same,
    the one held in [timerInterval]: [startTimer] clears before it creates. *)
Theorem X5_conversion_single_elapsed_timer option namespace ts w h1 h2 :
  C.run (C.onMount (C.created option namespace Host.noTimers)) ts = Some w →
  Host.runs h1 Host.ElapsedCb (C.timers w) = true →
  Host.runs h2 Host.ElapsedCb (C.timers w) = true →
  h1 = h2 ∧ C.timerInterval (C.timing w) = Some h1.
Proof.
  intros Hrun H1 H2.
  assert (Hh : C.elapsedHeld w = true).
  { eapply C_run_elapsedHeld; [|exact Hrun]. vm_compute. reflexivity. }
  pose proof (elapsedHeld_spec _ _ Hh H1) as E1.
  pose proof (elapsedHeld_spec _ _ Hh H2) as E2.
  split; [congruence|done].
Qed.

Lemma X5_conversion_single_elapsed_witness :
  ∃ w, C.run Samples.convMounted Samples.raceTrace = Some w
       ∧ Host.runs 3 Host.ElapsedCb (C.timers w) = true
       ∧ C.timerInterval (C.timing w) = Some 3%positive.
Proof.
  eexists. split; [vm_compute; reflexivity|]. split; [vm_compute; reflexivity|].
  refine (proj2 (X5_conversion_single_elapsed_timer (Some Samples.payWithDai) Samples.vrsc
                   Samples.raceTrace _ 3%positive 3%positive _ _ _));
    vm_compute; reflexivity.
Defined.

Lemma C_step_emitted w t w' :
  C.step w t = Some w' →
  C.emitted w' = C.emitted w
  ∨ ∃ txid balance,
      (C.baselineBalance (C.exec w) < balance)%Qc
      ∧ C.emitted w' =
          (C.emitted w ++ [C.completed txid (balance - C.baselineBalance (C.exec w))%Qc])%list.
Proof.
  destruct t as [| |est d|r|r now|h|r|h now|]; simpl.
  - destruct (_ && _); intros [= <-]. left.
    unfold C.startConversion. destruct (negb _); [done|]. by destruct w.
  - destruct (C.retryVisible w); intros [= <-]. left.
    unfold C.retryConversion, C.initialize, C.stopTimer, C.clearPolling.
    by destruct w as [po ns s [cv cs tx ce [hp|] bb cc ar] [st es [ht|]]].
  - destruct (bool_decide _); intros [= <-]. left. by destruct w.
  - destruct (bool_decide _); intros [= <-]. left. destruct r; by destruct w.
  - destruct (bool_decide _); intros [= <-]. left.
    destruct r as [e|txid]; [by destruct w|].
    unfold C.sendSettled, C.startPolling, C.startTimer.
    by destruct w as [po ns s [cv cs tx ce pi bb cc ar] [st es [ht|]]].
  - destruct (Host.runs _ _ _); intros [= <-]. left. by destruct w.
  - destruct (bool_decide _); intros [= <-].
    unfold C.pollSettled.
    set (w1 := C.withPending _ _ _ _ w).
    assert (Hx : C.exec w1 = C.exec w) by (by destruct w).
    assert (He : C.emitted w1 = C.emitted w) by (by destruct w).
    destruct r as [e|bal]; [by left|].
    rewrite Hx. case_bool_decide as Hlt; [|by left].
    right. eexists _, bal. split; [exact Hlt|].
    by rewrite completeConversion_emits, He.
  - destruct (Host.runs _ _ _); intros [= <-]. left. by destruct w.
  - destruct (C.mounted w); intros [= <-]. left. unfold C.onDestroy.
    by destruct w as [po ns s [cv cs tx ce [hp|] bb cc ar] [st es [ht|]]].
Qed.

Lemma positive_difference (a b : Qc) : (a < b)%Qc → (0 < b - a)%Qc.
Proof.
  intros Hlt. apply (proj2 (Qcplus_lt_mono_r 0 (b - a) a)).
  replace (b - a + a)%Qc with b by ring. by rewrite Qcplus_0_l.
Qed.

(** X6: every ['completed'] event reports a strictly positive amount.  The
    amount is the balance seen by the poll tick minus the baseline, and the
    tick completes the conversion only when that balance is above the
    baseline; this holds along every run, in flight and stale ticks
    included. *)
Theorem X6_completed_amount_positive ts : ∀ w w',
  Forall (λ e, (0 < C.amountOf e)%Qc) (C.emitted w) →
  C.run w ts = Some w' →
  Forall (λ e, (0 < C.amountOf e)%Qc) (C.emitted w').
Proof.
  induction ts as [|t ts IH]; simpl; intros w w' Hall.
  - by intros [= <-].
  - destruct (C.step w t) as [w1|] eqn:E; [|done].
    apply IH. destruct (C_step_emitted _ _ _ E) as [->|(txid & bal & Hlt & ->)]; [done|].
    apply Forall_app. split; [done|].
    apply Forall_singleton. simpl. by apply positive_difference.
Qed.

Lemma X6_completed_amount_witness :
  ∃ w', C.run Samples.convTicking [C.PollSettled (inr (Qc_of_Z 5))] = Some w'
        ∧ length (C.emitted w') = 1%nat
        ∧ Forall (λ e, (0 < C.amountOf e)%Qc) (C.emitted w').
Proof.
  eexists. split; [vm_compute; reflexivity|]. split; [vm_compute; reflexivity|].
  refine (X6_completed_amount_positive [C.PollSettled (inr (Qc_of_Z 5))]
            Samples.convTicking _ _ _).
  - vm_compute. constructor.
  - vm_compute. reflexivity.
Defined.

(** X7: polling never begins before a submission has been accepted.  As long
    as no [send_currency_conversion] call has resolved, no poll callback has
    run, no poll interval is live, no balance poll is in flight, the
    conversion is not marked started and nothing has been emitted, whatever
    else happens (failed submissions and retries included). *)
Theorem X7_no_poll_before_accepted_submission option namespace ts : ∀ w,
  Forall (λ t, C.isAcceptedSend t = false) ts →
  C.run (C.onMount (C.created option namespace Host.noTimers)) ts = Some w →
  C.ticks w = 0%nat ∧ C.pollPending w = 0%nat
  ∧ (∀ h, Host.runs h Host.PollCb (C.timers w) = false)
  ∧ C.pollingInterval (C.exec w) = None
  ∧ C.conversionStarted (C.exec w) = false
  ∧ C.conversionCompleted (C.exec w) = false
  ∧ C.emitted w = [].
Proof.
  set (Inv := λ w : C.World,
    C.ticks w = 0%nat ∧ C.pollPending w = 0%nat
    ∧ noneRuns Host.PollCb (C.timers w)
    ∧ C.pollingInterval (C.exec w) = None
    ∧ C.conversionStarted (C.exec w) = false
    ∧ C.conversionCompleted (C.exec w) = false
    ∧ C.emitted w = []).
  assert (Hstep : ∀ w t w', Inv w → C.isAcceptedSend t = false →
                            C.step w t = Some w' → Inv w').
  { intros w t w' (Ht & Hp & Hn & Hpi & Hcs & Hcc & He) Hacc.
    destruct t as [| |est d|r|r now|h|r|h now|]; simpl.
    - destruct (_ && _); intros [= <-].
      unfold C.startConversion. destruct (negb _); [done|].
      by destruct w as [po ns s [] []].
    - destruct (C.retryVisible w); intros [= <-].
      unfold C.retryConversion, C.initialize, C.clearPolling, C.stopTimer.
      destruct w as [po ns s [cv cs tx ce pi bb cc ar] [st es [ht|]]];
        simpl in *; subst pi; simpl; unfold Inv; simpl; repeat split; try done.
      by apply noPoll_clearInterval.
    - destruct (bool_decide _); intros [= <-].
      by destruct w as [po ns s [] []].
    - destruct (bool_decide _); intros [= <-].
      destruct r; by destruct w as [po ns s [] []].
    - destruct r as [e|txid]; [|done].
      destruct (bool_decide _); intros [= <-].
      by destruct w as [po ns s [] []].
    - by rewrite Hn.
    - rewrite Hp. done.
    - destruct (Host.runs _ _ _); intros [= <-].
      by destruct w as [po ns s [] []].
    - destruct (C.mounted w); intros [= <-]. unfold C.onDestroy.
      destruct w as [po ns s [cv cs tx ce pi bb cc ar] [st es [ht|]]];
        simpl in *; subst pi; simpl; unfold Inv; simpl; repeat split; try done.
      by apply noPoll_clearInterval. }
  assert (Hrun : ∀ ts w w', Inv w → Forall (λ t, C.isAcceptedSend t = false) ts →
                            C.run w ts = Some w' → Inv w').
  { clear ts. induction ts as [|t ts IH]; simpl; intros w w' Hi Hall.
    - by intros [= <-].
    - apply Forall_cons_1 in Hall as [Ht Hall].
      destruct (C.step w t) as [w1|] eqn:E; [|done].
      apply IH; [|done]. by eapply Hstep. }
  intros w Hall Hr. apply (Hrun ts _ w) in Hr; [exact Hr| |exact Hall].
  unfold Inv; simpl. repeat split; done.
Qed.

Lemma X7_no_poll_witness :
  ∃ w, C.run Samples.convMounted Samples.toSubmitted = Some w
       ∧ C.ticks w = 0%nat ∧ C.pollingInterval (C.exec w) = None.
Proof.
  eexists. split; [vm_compute; reflexivity|].
  destruct (X7_no_poll_before_accepted_submission (Some Samples.payWithDai) Samples.vrsc
              Samples.toSubmitted
              (default Samples.convMounted (C.run Samples.convMounted Samples.toSubmitted)))
    as (Ht & _ & _ & Hpi & _).
  - repeat constructor.
  - vm_compute. reflexivity.
  - split; [exact Ht|exact Hpi].
Defined.
